(** * ai_summary: the summarizer service of [main.py]

    A shallow embedding of the three FastAPI handlers of [main.py]
    ([root], [summarize_text], [get_history]) together with the two
    collaborators they talk to: the Hugging Face inference client and the
    MongoDB collection ['summaries'].

    Modelling decisions.
    - A Python [str] is the [string] of its UTF-8 bytes ([Str.utf8] of its
      code points); [len] counts characters, not bytes ([Str.len]);
      [str.lower] is the ASCII lower-casing [lower] (the needle
      ["timed out"] is pure ASCII).
    - Python [int] is [Z].
    - A Python [dict] used as a Mongo document is a [gmap string value].
    - The handlers run in a small state-and-exception monad [M]: the state
      holds the collection, the number of inference calls made so far and
      the chronological list of effects performed by the request
      (inference calls, prints, sleeps, inserts).
    - What the outside world answers during one request (the outcome of
      each inference call, the clock reading, the ObjectId generated by
      [insert_one]) is gathered in an [environment]; "for every run" is
      "for every environment and every initial collection".
    - Outside the model: exceptions that are no [Exception] (the [except]
      clauses do not see them), failures of the store itself (outage,
      integer width of the driver), the JSON encoding of a response, and
      the millisecond resolution to which the store cuts the date of a
      stored document (the model keeps the clock reading as it is). *)

From Stdlib Require Import ZArith Ascii String DecimalString.
From stdpp Require Import base option list strings gmap sorting.

Local Open Scope string_scope.
Local Open Scope list_scope.
Local Open Scope Z_scope.

(** ** Strings *)

Module Str.

(** [c.lower()] on one ASCII character. *)
Definition lower_char (c : ascii) : ascii :=
  let n := N_of_ascii c in
  if ((65 <=? n) && (n <=? 90))%N then ascii_of_N (n + 32) else c.

(** [s.lower()] *)
Fixpoint lower (s : string) : string :=
  match s with
  | EmptyString => EmptyString
  | String c s' => String (lower_char c) (lower s')
  end.

(** [hay.startswith(needle)] *)
Fixpoint startswith (needle hay : string) : bool :=
  match needle, hay with
  | EmptyString, _ => true
  | String _ _, EmptyString => false
  | String a needle', String b hay' =>
      if decide (a = b) then startswith needle' hay' else false
  end.

(** [needle in hay] *)
Fixpoint contains (needle hay : string) : bool :=
  startswith needle hay ||
  match hay with
  | EmptyString => false
  | String _ hay' => contains needle hay'
  end.

(** Is [c] a continuation byte of UTF-8 (bit pattern 10xxxxxx)?  Every
    character is encoded as one byte that is no continuation byte,
    followed by up to three that are. *)
Definition is_continuation (c : ascii) : bool :=
  let n := N_of_ascii c in
  ((128 <=? n) && (n <=? 191))%N.

(** [len(s)]: the number of characters (code points) of [s], that is the
    number of bytes that start a character. *)
Fixpoint len (s : string) : nat :=
  match s with
  | EmptyString => O
  | String c s' => if is_continuation c then len s' else S (len s')
  end.

(** The UTF-8 bytes of the character with code point [c]. *)
Definition utf8_char (c : N) : string :=
  if (c <? 128)%N then String (ascii_of_N c) EmptyString
  else if (c <? 2048)%N then
    String (ascii_of_N (192 + c / 64))
      (String (ascii_of_N (128 + c mod 64)) EmptyString)
  else if (c <? 65536)%N then
    String (ascii_of_N (224 + c / 4096))
      (String (ascii_of_N (128 + (c / 64) mod 64))
         (String (ascii_of_N (128 + c mod 64)) EmptyString))
  else
    String (ascii_of_N (240 + (c / 262144) mod 8))
      (String (ascii_of_N (128 + (c / 4096) mod 64))
         (String (ascii_of_N (128 + (c / 64) mod 64))
            (String (ascii_of_N (128 + c mod 64)) EmptyString))).

(** The [str] whose characters have the code points [cps]. *)
Fixpoint utf8 (cps : list N) : string :=
  match cps with
  | [] => EmptyString
  | c :: cps' => utf8_char c +:+ utf8 cps'
  end.

(** [str(n)] for an [int] *)
Definition of_int (n : Z) : string := NilZero.string_of_int (Z.to_int n).

(** Two strings are equal up to letter case: same length, and at every
    position the two characters have the same lower-case form. *)
Inductive eq_ignore_case : string -> string -> Prop :=
| eic_empty : eq_ignore_case "" ""
| eic_char c d s t :
    lower_char c = lower_char d ->
    eq_ignore_case s t ->
    eq_ignore_case (String c s) (String d t).

(** [hay] has an occurrence of [needle], compared case-insensitively. *)
Definition occurs_ignoring_case (needle hay : string) : Prop :=
  exists before mid after,
    hay = before +:+ mid +:+ after /\ eq_ignore_case mid needle.

End Str.

(** ** Exceptions, documents, effects *)

(** What [hf_client.summarization(...)] can raise: the typed
    [InferenceTimeoutError] of [huggingface_hub], or any other [Exception];
    each carries the text that [str(e)] yields. *)
Inductive exn :=
| InferenceTimeoutError (message : string)
| OtherException (message : string).

Definition str_exn (e : exn) : string :=
  match e with
  | InferenceTimeoutError m => m
  | OtherException m => m
  end.

(** One call of the inference client, seen from inside the [try] block:
    either [result.summary_text] is obtained or an exception is raised. *)
Inductive outcome :=
| Returns (summary_text : string)
| Raises (e : exn).

(** [bson.ObjectId], identified by its 24-digit hexadecimal rendering. *)
Record ObjectId := mkObjectId { oid_hex : string }.

Definition str_oid (o : ObjectId) : string := oid_hex o.

(** The field values that occur in the collection. *)
Inductive value :=
| VStr (s : string)
| VDate (t : Z)
| VOid (o : ObjectId).

Abbreviation document := (gmap string value).

(** Effects visible from outside the handler, in the order they happen. *)
Inductive event :=
| Summarization (text model : string)
| Print (line : string)
| Sleep (seconds : Z)
| InsertOne (stored : document).

(** Exceptions that leave a handler.  FastAPI turns [HTTPException] into a
    response with its status code; anything else is an internal error. *)
Inductive raised :=
| HTTPException (status_code : Z) (detail : string)
| UnboundLocalError (name : string)
| KeyError (key : string).

Inductive result (A : Type) :=
| Return (a : A)
| Raise (e : raised).
Arguments Return {A} a.
Arguments Raise {A} e.

(** The HTTP status FastAPI answers with. *)
Definition status_of {A} (r : result A) : Z :=
  match r with
  | Return _ => 200
  | Raise (HTTPException status_code _) => status_code
  | Raise _ => 500
  end.

Record environment := mkEnv {
  hf_outcome : nat -> string -> outcome;
  utcnow : Z;
  fresh_oid : ObjectId
}.

Record state := mkState {
  collection : list document;
  hf_calls : nat;
  trace : list event
}.

Definition M (A : Type) : Type := state -> result A * state.

Definition ret {A} (a : A) : M A := fun st => (Return a, st).

Definition raise {A} (e : raised) : M A := fun st => (Raise e, st).

Definition bind {A B} (m : M A) (k : A -> M B) : M B :=
  fun st =>
    match m st with
    | (Return a, st') => k a st'
    | (Raise e, st') => (Raise e, st')
    end.

Declare Scope handler_scope.
Delimit Scope handler_scope with handler.
Notation "x <- m ;; k" := (bind m (fun x => k))
  (at level 100, m at next level, right associativity) : handler_scope.
Notation "m ;;; k" := (bind m (fun _ => k))
  (at level 100, right associativity) : handler_scope.
Local Open Scope handler_scope.

Definition emit (e : event) : M unit :=
  fun st => (Return tt, mkState (collection st) (hf_calls st) (trace st ++ [e])).

(** ** The MongoDB collection, as far as [main.py] uses it

    The store and its driver (pymongo) are external collaborators: their
    code is not part of the service.  The handler only builds the chain
    [collection.find({}, {"_id": 0}).sort("created_at", -1).limit(limit)]
    and iterates it; what that chain yields is described here. *)

Module Mongo.

(** Modelled from the spec: the order in which the store sorts on a field
    is not in the sources.  The spec has the history "newest first" by
    [created_at]; between dates that is the order of time.  For the other
    values a document can hold the model follows MongoDB's comparison
    order: by BSON type first (null or missing field, then string, then
    ObjectId, then date), by content within one type. *)
Definition bson_rank (v : option value) : Z :=
  match v with
  | None => 0
  | Some (VStr _) => 1
  | Some (VOid _) => 2
  | Some (VDate _) => 3
  end.

Definition bson_leb (a b : option value) : bool :=
  match a, b with
  | Some (VStr s), Some (VStr t) => String.leb s t
  | Some (VOid o), Some (VOid p) => String.leb (oid_hex o) (oid_hex p)
  | Some (VDate s), Some (VDate t) => s <=? t
  | _, _ => bson_rank a <=? bson_rank b
  end.

Definition bson_le (a b : option value) : Prop := bson_leb a b = true.

(** [d1] may be returned before [d2] by a cursor sorted on [key]:
    a negative direction is descending, otherwise ascending. *)
Definition ordered_before (key : string) (direction : Z)
    (d1 d2 : document) : Prop :=
  if direction <? 0 then bson_le (d2 !! key) (d1 !! key)
  else bson_le (d1 !! key) (d2 !! key).

#[global] Instance ordered_before_dec key direction :
  RelDecision (ordered_before key direction).
Proof.
  intros d1 d2. unfold ordered_before, bson_le.
  destruct (direction <? 0); apply bool_eq_dec.
Defined.

(** A cursor is a query description; nothing is read until it is
    iterated. *)
Record cursor := mkCursor {
  matched : list document;
  excluded_fields : list string;
  sort_spec : option (string * Z);
  limit_spec : Z
}.

(** [collection.find({}, {f: 0, ...})]: the empty filter matches every
    document; the projection excludes the listed fields. *)
Definition find (coll : list document) (excluded : list string) : cursor :=
  mkCursor coll excluded None 0.

(** [cursor.sort(key, direction)] *)
Definition sort (key : string) (direction : Z) (c : cursor) : cursor :=
  mkCursor (matched c) (excluded_fields c) (Some (key, direction))
           (limit_spec c).

(** [cursor.limit(n)] *)
Definition limit (n : Z) (c : cursor) : cursor :=
  mkCursor (matched c) (excluded_fields c) (sort_spec c) n.

Definition project (excluded : list string) (d : document) : document :=
  foldr delete d excluded.

(** Modelled from the spec: iterating a cursor, [list(cursor)], is done by
    the driver and the store, which are not in the sources.  Following the
    spec's "simple filter/sort/limit semantics" the matched documents are
    sorted, cut to the limit, and stripped of the excluded fields.  As the
    driver documents, a limit of 0 means no limit, and a negative limit
    [-n] yields at most [n] documents. *)
Definition to_list (c : cursor) : list document :=
  let sorted :=
    match sort_spec c with
    | None => matched c
    | Some (key, direction) =>
        merge_sort (ordered_before key direction) (matched c)
    end in
  let limited :=
    if limit_spec c =? 0 then sorted
    else take (Z.abs_nat (limit_spec c)) sorted in
  project (excluded_fields c) <$> limited.

End Mongo.

(** ** Requests and responses *)

Record SummaryRequest := mkSummaryRequest { text : string }.

Record SummarizeResponse := mkSummarizeResponse {
  id : string;
  summary : string;
  timestamp : value
}.

Record HistoryResponse := mkHistoryResponse {
  count : Z;
  data : list document
}.

Record RootResponse := mkRootResponse {
  status : string;
  message : string
}.

(** How one pass through the body of the [for] loop ends when it does not
    raise: [break] with [summary_result] bound, or on to the next pass. *)
Inductive flow :=
| Break (summary_result : string)
| Continue.

(** [range(n)] *)
Definition range (n : Z) : list Z := seqZ 0 n.

Section Handlers.

Variable env : environment.

(** [hf_client.summarization(text, model=...)] followed by
    [result.summary_text], both inside the [try]. *)
Definition hf_client_summarization (text model : string) : M outcome :=
  fun st =>
    (Return (hf_outcome env (hf_calls st) text),
     mkState (collection st) (S (hf_calls st))
             (trace st ++ [Summarization text model])).

Definition print (line : string) : M unit := emit (Print line).

(** [time.sleep(seconds)] *)
Definition time_sleep (seconds : Z) : M unit := emit (Sleep seconds).

(** [datetime.utcnow()] *)
Definition datetime_utcnow : M value := ret (VDate (utcnow env)).

(** [collection.insert_one(record)] for a [record] without ["_id"], as
    the handler builds it: an ObjectId is generated, added to the
    caller's dict under ["_id"], and the document is stored.  Returned
    are [inserted_id] and the caller's dict after the call. *)
Definition insert_one (record : document) : M (ObjectId * document) :=
  fun st =>
    let inserted_id := fresh_oid env in
    let record' := <["_id" := VOid inserted_id]> record in
    (Return (inserted_id, record'),
     mkState (collection st ++ [record']) (hf_calls st)
             (trace st ++ [InsertOne record'])).

(** [d[key]] *)
Definition getitem (d : document) (key : string) : M value :=
  match d !! key with
  | Some v => ret v
  | None => raise (KeyError key)
  end.

(** [@app.get("/")] *)
Definition root : M RootResponse :=
  ret (mkRootResponse "running" "Go to /docs for Swagger UI").

(** One pass through the body of the retry loop (lines 81 to 114). *)
Definition attempt_once (request : SummaryRequest)
    (max_retries attempt : Z) : M flow :=
  r <- hf_client_summarization (text request)
         "sshleifer/distilbart-cnn-12-6";;
  match r with
  | Returns summary_text => ret (Break summary_text)
  | Raises (InferenceTimeoutError _) =>
      if attempt <? max_retries - 1 then
        let wait_time := 10 * (attempt + 1) in
        print ("Timeout, retrying in " +:+ Str.of_int wait_time
               +:+ "s... (attempt " +:+ Str.of_int (attempt + 2)
               +:+ "/" +:+ Str.of_int max_retries +:+ ")");;;
        time_sleep wait_time;;;
        ret Continue
      else
        raise (HTTPException 504 "Model timeout. Please try again.")
  | Raises (OtherException _ as e) =>
      let error_msg := str_exn e in
      if Str.contains "timed out" (Str.lower error_msg) then
        if attempt <? max_retries - 1 then
          let wait_time := 10 * (attempt + 1) in
          print ("Read timeout, retrying in " +:+ Str.of_int wait_time
                 +:+ "s... (attempt " +:+ Str.of_int (attempt + 2)
                 +:+ "/" +:+ Str.of_int max_retries +:+ ")");;;
          time_sleep wait_time;;;
          ret Continue
        else
          raise (HTTPException 504
            "Connection timeout. The model is warming up. Please try again in a moment.")
      else
        raise (HTTPException 500 ("AI Error: " +:+ error_msg))
  end.

(** [for attempt in attempts: ...]; the value is the binding of the
    local [summary_result] after the loop, [None] when the loop ran out
    without reaching [break]. *)
Fixpoint for_attempts (request : SummaryRequest) (max_retries : Z)
    (attempts : list Z) : M (option string) :=
  match attempts with
  | [] => ret None
  | attempt :: rest =>
      f <- attempt_once request max_retries attempt;;
      match f with
      | Break summary_result => ret (Some summary_result)
      | Continue => for_attempts request max_retries rest
      end
  end.

(** [@app.post("/summarize")] *)
Definition summarize_text (request : SummaryRequest) : M SummarizeResponse :=
  if decide (text request = "") then
    raise (HTTPException 400 "Text cannot be empty")
  else
    let max_length := 1024 in
    if max_length <? Z.of_nat (Str.len (text request)) then
      raise (HTTPException 400
        ("Text too long. Maximum " +:+ Str.of_int max_length
         +:+ " characters allowed."))
    else
      let max_retries := 3 in
      bound <- for_attempts request max_retries (range max_retries);;
      match bound with
      | None => raise (UnboundLocalError "summary_result")
      | Some summary_result =>
          created_at <- datetime_utcnow;;
          let record : document :=
            <["created_at" := created_at]>
              (<["summary_text" := VStr summary_result]>
                 (<["original_text" := VStr (text request)]> ∅)) in
          ins <- insert_one record;;
          let '(inserted_id, record) := ins in
          ts <- getitem record "created_at";;
          ret (mkSummarizeResponse (str_oid inserted_id) summary_result ts)
      end.

(** [@app.get("/history")] with the query parameter already parsed. *)
Definition get_history (limit : Z) : M HistoryResponse :=
  fun st =>
    let cursor :=
      Mongo.limit limit
        (Mongo.sort "created_at" (-1)
           (Mongo.find (collection st) ["_id"])) in
    let history := Mongo.to_list cursor in
    (Return (mkHistoryResponse (Z.of_nat (length history)) history), st).

End Handlers.

(** ** The service as a transition system on the collection *)

Inductive request :=
| GET_root
| POST_summarize (body : SummaryRequest)
| GET_history (limit : option Z).

Inductive response_body :=
| RootBody (r : RootResponse)
| SummarizeBody (r : SummarizeResponse)
| HistoryBody (r : HistoryResponse).

(** The default of [limit: int = 10]. *)
Definition default_limit : Z := 10.

Definition dispatch (env : environment) (req : request) : M response_body :=
  match req with
  | GET_root => r <- root;; ret (RootBody r)
  | POST_summarize body => r <- summarize_text env body;; ret (SummarizeBody r)
  | GET_history limit =>
      r <- get_history (default default_limit limit);; ret (HistoryBody r)
  end.

(** A handler run for one request, starting from the collection [coll]. *)
Definition run {A} (handler : M A) (coll : list document) : result A * state :=
  handler (mkState coll 0 []).

(** The collection after serving one request. *)
Definition serve (coll : list document) (step : environment * request)
    : list document :=
  collection (snd (run (dispatch (fst step) (snd step)) coll)).

(** The collection after serving a sequence of requests, oldest first. *)
Definition serve_all (steps : list (environment * request))
    (coll : list document) : list document :=
  fold_left serve steps coll.

(** The [Sleep] durations of a trace, in order. *)
Definition sleeps (tr : list event) : list Z :=
  omap (fun e => match e with Sleep s => Some s | _ => None end) tr.

(** The texts handed to the inference client, in order. *)
Definition inference_calls (tr : list event) : list string :=
  omap (fun e => match e with Summarization t _ => Some t | _ => None end) tr.

(** The documents inserted, in order. *)
Definition inserts (tr : list event) : list document :=
  omap (fun e => match e with InsertOne d => Some d | _ => None end) tr.

(** Code-side view of the two [except] clauses: does the handler treat
    this outcome of a call as a timeout? *)
Definition treated_as_timeout (o : outcome) : bool :=
  match o with
  | Returns _ => false
  | Raises (InferenceTimeoutError _) => true
  | Raises (OtherException m) => Str.contains "timed out" (Str.lower m)
  end.

(** Spec-side classification of an exception: the typed timeout, or a
    message with a case-insensitive occurrence of ["timed out"]. *)
Definition timeout_classified (e : exn) : Prop :=
  (exists m, e = InferenceTimeoutError m) \/
  Str.occurs_ignoring_case "timed out" (str_exn e).

(** The trace without its console output and database writes: only the
    inference calls and the sleeps remain. *)
Definition skeleton (tr : list event) : list event :=
  List.filter (fun e => match e with
                        | Summarization _ _ | Sleep _ => true
                        | _ => false
                        end) tr.

(** [n] inference calls on [text] with a sleep of [10 * (i + 1)] seconds
    between call [i] and call [i + 1], and nothing after the last call. *)
Fixpoint schedule_from (text model : string) (i : Z) (n : nat) : list event :=
  match n with
  | O => []
  | S O => [Summarization text model]
  | S n' =>
      Summarization text model :: Sleep (10 * (i + 1))
        :: schedule_from text model (i + 1) n'
  end.

Definition schedule (text : string) (n : nat) : list event :=
  schedule_from text "sshleifer/distilbart-cnn-12-6" 0 n.

(** How the retry policy ends, read off the outcomes of the successive
    calls alone: [retries] timeouts followed by a success or by another
    error; a timeout on the last permitted attempt; or no attempt at all. *)
Inductive verdict :=
| Succeeded (retries : nat) (summary_text : string)
| Failed (retries : nat) (e : exn)
| TimedOut
| FellThrough.

Definition one_more_retry (v : verdict) : verdict :=
  match v with
  | Succeeded n s => Succeeded (S n) s
  | Failed n e => Failed (S n) e
  | TimedOut => TimedOut
  | FellThrough => FellThrough
  end.

(** The verdict when [budget] attempts are left and the next call is the
    [k]-th one. *)
Fixpoint verdict_from (outcomes : nat -> outcome) (k budget : nat) : verdict :=
  match budget with
  | O => FellThrough
  | S budget' =>
      match outcomes k with
      | Returns s => Succeeded 0 s
      | Raises e =>
          if treated_as_timeout (Raises e) then
            match budget' with
            | O => TimedOut
            | S _ => one_more_retry (verdict_from outcomes (S k) budget')
            end
          else Failed 0 e
      end
  end.

(** The verdict of a request on [text] under the three-attempt policy. *)
Definition verdict_of (env : environment) (text : string) : verdict :=
  verdict_from (fun k => hf_outcome env k text) 0 3.

(** The document that ends up in the collection for a summarized text. *)
Definition stored_record (env : environment) (request : SummaryRequest)
    (summary_text : string) : document :=
  <["_id" := VOid (fresh_oid env)]>
    (<["created_at" := VDate (utcnow env)]>
       (<["summary_text" := VStr summary_text]>
          (<["original_text" := VStr (text request)]> ∅))).

(** The state right after one inference call and the effects [extra]
    that followed it. *)
Definition after_call (request : SummaryRequest) (st : state)
    (extra : list event) : state :=
  mkState (collection st) (S (hf_calls st))
    (trace st
       ++ Summarization (text request) "sshleifer/distilbart-cnn-12-6"
       :: extra).

(** A request that passes the two validation checks. *)
Definition valid (request : SummaryRequest) : Prop :=
  text request <> "" /\ (Str.len (text request) <= 1024)%nat.

(** The [i]-th inference call of a request on [text] raises an exception
    that is classified as a timeout. *)
Definition times_out (env : environment) (text : string) (i : nat) : Prop :=
  exists e, hf_outcome env i text = Raises e /\ timeout_classified e.

(** [d] is the record of a request served in [steps]: that request passed
    validation, one of its (at most three) inference calls returned the
    summary, and [d] pairs the request's text with that summary. *)
Definition recorded_by (steps : list (environment * request))
    (d : document) : Prop :=
  exists env body i s,
    (env, POST_summarize body) ∈ steps /\
    valid body /\ (i < 3)%nat /\
    hf_outcome env i (text body) = Returns s /\
    d !! "original_text" = Some (VStr (text body)) /\
    d !! "summary_text" = Some (VStr s).

(** [d1] was created no earlier than [d2], in the order the history query
    sorts by: [created_at], descending. *)
Definition newest_first (d1 d2 : document) : Prop :=
  Mongo.bson_le (d2 !! "created_at") (d1 !! "created_at").

(** Sample data used to exercise the statements below. *)
Definition sample_oid : ObjectId := mkObjectId "65a1f0c2e4b0a1b2c3d4e5f6".

Definition sample_request : SummaryRequest :=
  mkSummaryRequest "The quick brown fox jumps over the lazy dog.".

(** A stored record created at time [t]. *)
Definition sample_record (t : Z) : document :=
  stored_record (mkEnv (fun _ _ => Returns "") t sample_oid)
    sample_request "A fox jumps over a dog.".

(** Fifteen stored records, created at times 1 to 15, oldest first. *)
Definition fifteen_records : list document := sample_record <$> seqZ 1 15.

(** Two timeouts (one typed, one recognised by its message), then a
    summary. *)
Definition flaky_env : environment :=
  mkEnv (fun k _ =>
           match k with
           | 0%nat => Raises (InferenceTimeoutError "inference timed out")
           | 1%nat => Raises (OtherException "HTTPSConnectionPool: Read Timed Out.")
           | _ => Returns "A fox jumps over a dog."
           end)
        1700000000000 sample_oid.

(** Every call times out. *)
Definition cold_env : environment :=
  mkEnv (fun _ _ => Raises (OtherException "The read operation timed out"))
        1700000000000 sample_oid.

(** The first call fails with an error that is no timeout. *)
Definition broken_env : environment :=
  mkEnv (fun _ _ => Raises (OtherException "401 Unauthorized"))
        1700000000000 sample_oid.

(** ** Start-up: the module level of [main.py] (lines 12 to 46) *)

Module Startup.

(** [os.getenv(name)] on the environment left by [load_dotenv()]. *)
Definition os_getenv (environ : gmap string string) (name : string)
    : option string :=
  environ !! name.

(** Truth value of an [Optional[str]]: [None] and the empty string are
    false. *)
Definition truthy (v : option string) : bool :=
  match v with
  | Some (String _ _) => true
  | _ => false
  end.

(** What the store does while the module is loaded: whether
    [MongoClient(uri)] and then [admin.command('ping')] raise, and with
    which message; [None] stands for a normal return. *)
Record mongo_outcome := mkMongoOutcome {
  client_error : option string;
  ping_error : option string
}.

(** The module after loading: is the global [collection] bound, and what
    was printed. *)
Record module_state := mkModuleState {
  collection_bound : bool;
  console : list string
}.

Inductive startup_result :=
| ValueError (message : string)
| Loaded (globals : module_state).

(** The [try] block of lines 31 to 38. *)
Definition connect (mongo : mongo_outcome) : module_state :=
  match client_error mongo with
  | Some e => mkModuleState false ["❌ MongoDB Connection Error: " +:+ e]
  | None =>
      match ping_error mongo with
      | Some e => mkModuleState true ["❌ MongoDB Connection Error: " +:+ e]
      | None => mkModuleState true ["✅ Successfully connected to MongoDB"]
      end
  end.

(** Loading the module, given the environment and what the store does
    for a connection string. *)
Definition startup (environ : gmap string string)
    (mongo : string -> mongo_outcome) : startup_result :=
  let MONGO_URI := os_getenv environ "MONGO_URI" in
  let HF_TOKEN := os_getenv environ "HF_TOKEN" in
  if negb (truthy MONGO_URI) || negb (truthy HF_TOKEN) then
    ValueError "Missing environment variables. Check your .env file."
  else
    Loaded (connect (mongo (default EmptyString MONGO_URI))).

(** Both credentials are set to a non-empty value. *)
Definition configured (environ : gmap string string) : Prop :=
  exists uri token,
    environ !! "MONGO_URI" = Some uri /\ uri <> EmptyString /\
    environ !! "HF_TOKEN" = Some token /\ token <> EmptyString.

End Startup.

(** ** The summarize handler in two halves, and without a store handle *)

Section HandlerHalves.

Variable env : environment.

(** Lines 67 to 115 of [summarize_text]: validation and the retry loop;
    the value is the local [summary_result]. *)
Definition summarize_until_record (request : SummaryRequest) : M string :=
  if decide (text request = EmptyString) then
    raise (HTTPException 400 "Text cannot be empty")
  else
    let max_length := 1024 in
    if max_length <? Z.of_nat (Str.len (text request)) then
      raise (HTTPException 400
        ("Text too long. Maximum " +:+ Str.of_int max_length
         +:+ " characters allowed."))
    else
      let max_retries := 3 in
      bound <- for_attempts env request max_retries (range max_retries);;
      match bound with
      | None => raise (UnboundLocalError "summary_result")
      | Some summary_result => ret summary_result
      end.

(** Lines 116 to 128 of [summarize_text]. *)
Definition save_and_answer (request : SummaryRequest)
    (summary_result : string) : M SummarizeResponse :=
  created_at <- datetime_utcnow env;;
  let record : document :=
    <["created_at" := created_at]>
      (<["summary_text" := VStr summary_result]>
         (<["original_text" := VStr (text request)]> ∅)) in
  ins <- insert_one env record;;
  let '(inserted_id, record) := ins in
  ts <- getitem record "created_at";;
  ret (mkSummarizeResponse (str_oid inserted_id) summary_result ts).

(** How a handler ends when a module global may be missing: as before,
    or with the [NameError] Python raises for an unbound global. *)
Inductive ending (A : Type) :=
| Ended (r : result A)
| NameError (name : string).

(** [summarize_text] when the global [collection] is unbound (the
    [MongoClient] constructor raised at start-up): everything up to line
    121 runs as usual, then evaluating [collection] on line 122 raises. *)
Definition summarize_text_unbound (request : SummaryRequest)
    : state -> ending SummarizeResponse * state :=
  fun st =>
    match summarize_until_record request st with
    | (Return _, st') => (NameError _ "collection", st')
    | (Raise e, st') => (Ended _ (Raise e), st')
    end.

End HandlerHalves.

(** ** Descriptions used in the statements about the whole run *)

(** The lines printed, in order. *)
Definition prints (tr : list event) : list string :=
  omap (fun e => match e with Print l => Some l | _ => None end) tr.

(** The trace without inference calls and inserts: console and sleeps. *)
Definition announcements (tr : list event) : list event :=
  List.filter (fun e => match e with
                        | Print _ | Sleep _ => true
                        | _ => false
                        end) tr.

(** Was the call ended by the typed [InferenceTimeoutError]? *)
Definition is_typed_timeout (o : outcome) : bool :=
  match o with
  | Raises (InferenceTimeoutError _) => true
  | _ => false
  end.

(** The line printed before the sleep that follows a timed-out attempt. *)
Definition retry_notice (o : outcome) (max_retries attempt : Z) : string :=
  if is_typed_timeout o then
    "Timeout, retrying in " +:+ Str.of_int (10 * (attempt + 1))
    +:+ "s... (attempt " +:+ Str.of_int (attempt + 2)
    +:+ "/" +:+ Str.of_int max_retries +:+ ")"
  else
    "Read timeout, retrying in " +:+ Str.of_int (10 * (attempt + 1))
    +:+ "s... (attempt " +:+ Str.of_int (attempt + 2)
    +:+ "/" +:+ Str.of_int max_retries +:+ ")".

(** The detail of the 504 answer after a timeout on the last attempt. *)
Definition timeout_detail (o : outcome) : string :=
  if is_typed_timeout o then "Model timeout. Please try again."
  else "Connection timeout. The model is warming up. Please try again in a moment.".

(** The events of a loop run with [retries] retries before its last call:
    call, notice, sleep, ..., call.  The first call is the [k]-th of the
    request and belongs to attempt [attempt]. *)
Fixpoint loop_events (env : environment) (text : string)
    (max_retries attempt : Z) (k retries : nat) : list event :=
  match retries with
  | O => [Summarization text "sshleifer/distilbart-cnn-12-6"]
  | S retries' =>
      Summarization text "sshleifer/distilbart-cnn-12-6"
        :: Print (retry_notice (hf_outcome env k text) max_retries attempt)
        :: Sleep (10 * (attempt + 1))
        :: loop_events env text max_retries (attempt + 1) (S k) retries'
  end.

(** The request on [text] reaches an attempt that returns the summary
    [s]: every earlier attempt timed out. *)
Definition succeeds_with (env : environment) (text s : string) : Prop :=
  exists i, (i < 3)%nat /\
            (forall j, (j < i)%nat -> times_out env text j) /\
            hf_outcome env i text = Returns s.

(** The fields of a stored record, and of a history entry. *)
Definition record_fields : gset string :=
  {[ "_id"; "original_text"; "summary_text"; "created_at" ]}.

Definition history_fields : gset string :=
  {[ "original_text"; "summary_text"; "created_at" ]}.

(** The state after a loop run that added [events] to the trace and made
    [calls] inference calls. *)
Definition extended (st : state) (events : list event) (calls : nat) : state :=
  mkState (collection st) (hf_calls st + calls) (trace st ++ events).


(** A text of 600 characters that takes 1200 bytes. *)
Definition accented_request : SummaryRequest :=
  mkSummaryRequest (Str.utf8 (replicate 600 233%N)).

(** More sample data. *)
Definition sample_environ : gmap string string :=
  <["MONGO_URI" := "mongodb://localhost:27017"]>
    (<["HF_TOKEN" := "hf_0123456789"]> ∅).

Definition unreachable_mongo (uri : string) : Startup.mongo_outcome :=
  Startup.mkMongoOutcome None (Some "localhost:27017: Connection refused").

(** The first call returns a summary at once. *)
Definition prompt_env : environment :=
  mkEnv (fun _ _ => Returns "A fox jumps over a dog.")
        1700000000500 (mkObjectId "65a1f0c2e4b0a1b2c3d4e5f7").

(** ** Facts about strings *)

Module StrFacts.
Import Str.

Lemma startswith_spec needle hay :
  startswith needle hay = true <-> exists rest, hay = needle +:+ rest.
Proof.
  revert hay. induction needle as [|a needle IH]; intros hay; simpl.
  - split; [intros _; by exists hay | done].
  - destruct hay as [|b hay].
    + split; [done | intros [rest Hr]; discriminate Hr].
    + destruct (decide (a = b)) as [->|Hne].
      * rewrite IH. split; intros [rest Hr]; exists rest.
        -- by rewrite Hr.
        -- by injection Hr.
      * split; [done | intros [rest Hr]]. injection Hr as Hab _.
        by destruct Hne.
Qed.

Lemma contains_spec needle hay :
  contains needle hay = true <->
  exists before after, hay = before +:+ needle +:+ after.
Proof.
  induction hay as [|b hay IH]; simpl.
  - rewrite orb_false_r, startswith_spec. split.
    + intros [rest Hr]. by exists "", rest.
    + intros ([|c before] & after & Hr); [by exists after | discriminate Hr].
  - rewrite orb_true_iff, startswith_spec, IH. split.
    + intros [[rest Hr] | (before & after & Hr)].
      * by exists "", rest.
      * exists (String b before), after. simpl. by rewrite Hr.
    + intros ([|c before] & after & Hr).
      * left. by exists after.
      * right. injection Hr as _ Hr. by exists before, after.
Qed.

Lemma lower_app s t : lower (s +:+ t) = lower s +:+ lower t.
Proof. induction s as [|c s IH]; simpl; [done | by rewrite IH]. Qed.

(** A split of the lower-cased string comes from a split of the
    string itself. *)
Lemma lower_split s a b :
  lower s = a +:+ b ->
  exists a' b', s = a' +:+ b' /\ lower a' = a /\ lower b' = b.
Proof.
  revert s. induction a as [|c a IH]; intros s Hs; simpl in Hs.
  - by exists "", s.
  - destruct s as [|d s]; [discriminate Hs |]. simpl in Hs.
    injection Hs as Hc Hs. destruct (IH s Hs) as (a' & b' & -> & Ha & Hb).
    exists (String d a'), b'. simpl. by rewrite Hc, Ha.
Qed.

Lemma eq_ignore_case_lower s t : eq_ignore_case s t <-> lower s = lower t.
Proof.
  split.
  - induction 1 as [|c d s t Hcd _ IH]; simpl; [done | by rewrite Hcd, IH].
  - revert t. induction s as [|c s IH]; intros [|d t] H; simpl in H;
      try discriminate H.
    + constructor.
    + injection H as Hcd H. constructor; auto.
Qed.

(** What [needle in hay.lower()] decides, for a needle that is already
    in lower case. *)
Lemma contains_lower_spec needle hay :
  lower needle = needle ->
  contains needle (lower hay) = true <-> occurs_ignoring_case needle hay.
Proof.
  intros Hneedle. rewrite contains_spec. unfold occurs_ignoring_case. split.
  - intros (before & rest & H).
    destruct (lower_split _ _ _ H) as (before' & rest' & -> & _ & Hrest).
    destruct (lower_split _ _ _ Hrest) as (mid & after' & -> & Hmid & _).
    exists before', mid, after'. split; [done |].
    apply eq_ignore_case_lower. by rewrite Hneedle.
  - intros (before & mid & after & -> & Hmid).
    apply eq_ignore_case_lower in Hmid. rewrite Hneedle in Hmid.
    exists (lower before), (lower after).
    by rewrite !lower_app, Hmid.
Qed.

Lemma treated_as_timeout_spec e :
  treated_as_timeout (Raises e) = true <-> timeout_classified e.
Proof.
  unfold timeout_classified. destruct e as [m|m]; simpl.
  - split; [intros _; left; by exists m | done].
  - rewrite (contains_lower_spec "timed out" m eq_refl). split; [tauto |].
    intros [[m' Hm] | H]; [discriminate Hm | done].
Qed.

(** A byte that starts a character counts, a continuation byte does
    not. *)
Lemma is_continuation_byte n :
  (n < 256)%N ->
  is_continuation (ascii_of_N n) = ((128 <=? n) && (n <=? 191))%N.
Proof. intros Hn. unfold is_continuation. by rewrite N_ascii_embedding. Qed.

Lemma len_lead n s :
  (n < 128 \/ 192 <= n < 256)%N -> len (String (ascii_of_N n) s) = S (len s).
Proof.
  intros Hn. cbn [len]. rewrite is_continuation_byte by lia.
  destruct (N.leb_spec 128 n), (N.leb_spec n 191); cbn; try done; lia.
Qed.

Lemma len_continuation n s :
  (128 <= n <= 191)%N -> len (String (ascii_of_N n) s) = len s.
Proof.
  intros Hn. cbn [len]. rewrite is_continuation_byte by lia.
  destruct (N.leb_spec 128 n), (N.leb_spec n 191); cbn; try done; lia.
Qed.

(** Whatever its code point, a character counts once. *)
Lemma len_utf8_char c rest : len (utf8_char c +:+ rest) = S (len rest).
Proof.
  assert (Hlow : forall n, (n mod 64 < 64)%N) by (intros n; by apply N.mod_lt).
  pose proof (Hlow c) as H0. pose proof (Hlow (c / 64)%N) as H1.
  pose proof (Hlow (c / 4096)%N) as H2.
  assert (H3 : ((c / 262144) mod 8 < 8)%N) by by apply N.mod_lt.
  assert (H4 : (c < 2048 -> c / 64 < 32)%N).
  { intros Hc. by apply N.Div0.div_lt_upper_bound. }
  assert (H5 : (c < 65536 -> c / 4096 < 16)%N).
  { intros Hc. by apply N.Div0.div_lt_upper_bound. }
  clear Hlow. unfold utf8_char.
  set (r0 := (c mod 64)%N) in *. set (r1 := ((c / 64) mod 64)%N) in *.
  set (r2 := ((c / 4096) mod 64)%N) in *.
  set (r3 := ((c / 262144) mod 8)%N) in *.
  set (q1 := (c / 64)%N) in *. set (q2 := (c / 4096)%N) in *.
  clearbody r0 r1 r2 r3 q1 q2.
  destruct (N.ltb_spec c 128) as [Hc|Hc];
    [| destruct (N.ltb_spec c 2048) as [Hc'|Hc'];
       [| destruct (N.ltb_spec c 65536) as [Hc''|Hc'']]];
    repeat change (String ?a ?s +:+ rest) with (String a (s +:+ rest));
    change ("" +:+ rest) with rest.
  - by rewrite len_lead by lia.
  - by rewrite len_lead, len_continuation by lia.
  - by rewrite len_lead, !len_continuation by lia.
  - by rewrite len_lead, !len_continuation by lia.
Qed.

(** [len] of a [str] is the number of its characters, however many bytes
    each of them takes. *)
Lemma len_utf8 cps : len (utf8 cps) = length cps.
Proof.
  induction cps as [|c cps IH]; [done |].
  cbn [utf8 length]. by rewrite len_utf8_char, IH.
Qed.

Lemma utf8_empty cps : utf8 cps = "" <-> cps = [].
Proof.
  split; [| by intros ->]. destruct cps as [|c cps]; [done |].
  intros H. apply (f_equal len) in H. rewrite len_utf8 in H. discriminate H.
Qed.

(** Characters are counted, not bytes: 600 times U+00E9 is 600 long and
    takes 1200 bytes. *)
Lemma len_counts_characters :
  len (text accented_request) = 600%nat /\
  String.length (text accented_request) = 1200%nat.
Proof. split; by vm_compute. Qed.

End StrFacts.

(** ** Facts about traces *)

Lemma skeleton_app tr1 tr2 : skeleton (tr1 ++ tr2) = skeleton tr1 ++ skeleton tr2.
Proof. apply List.filter_app. Qed.

Lemma sleeps_app tr1 tr2 : sleeps (tr1 ++ tr2) = sleeps tr1 ++ sleeps tr2.
Proof. apply omap_app. Qed.

Lemma inserts_app tr1 tr2 : inserts (tr1 ++ tr2) = inserts tr1 ++ inserts tr2.
Proof. apply omap_app. Qed.

Lemma inference_calls_app tr1 tr2 :
  inference_calls (tr1 ++ tr2) = inference_calls tr1 ++ inference_calls tr2.
Proof. apply omap_app. Qed.

(** Sleeps and inference calls can be read off the skeleton. *)
Lemma sleeps_skeleton tr : sleeps (skeleton tr) = sleeps tr.
Proof. induction tr as [|[] tr IH]; simpl; by rewrite ?IH. Qed.

Lemma inference_calls_skeleton tr :
  inference_calls (skeleton tr) = inference_calls tr.
Proof. induction tr as [|[] tr IH]; simpl; by rewrite ?IH. Qed.

Lemma schedule_from_step text model i n :
  schedule_from text model i (S (S n)) =
  Summarization text model :: Sleep (10 * (i + 1))
    :: schedule_from text model (i + 1) (S n).
Proof. reflexivity. Qed.

Lemma inference_calls_schedule_from text model i n :
  inference_calls (schedule_from text model i n) = replicate n text.
Proof.
  destruct n as [|n]; [done |].
  revert i. induction n as [|n IH]; intros i; [done |].
  rewrite schedule_from_step. cbn [inference_calls omap list_omap].
  fold (inference_calls (schedule_from text model (i + 1) (S n))).
  by rewrite IH.
Qed.

Lemma sleeps_schedule_from text model i n :
  sleeps (schedule_from text model i (S n)) =
  (fun j => 10 * (j + 1)) <$> seqZ i (Z.of_nat n).
Proof.
  revert i. induction n as [|n IH]; intros i; [by rewrite seqZ_nil |].
  rewrite schedule_from_step. cbn [sleeps omap list_omap].
  fold (sleeps (schedule_from text model (i + 1) (S n))). rewrite IH.
  rewrite Nat2Z.inj_succ, (seqZ_cons i) by lia.
  rewrite Z.pred_succ. by replace (Z.succ i) with (i + 1) by lia.
Qed.

(** ** One pass of the retry loop, and the loop as a whole *)

(** With at least one attempt permitted the policy reaches a decision. *)
Lemma verdict_from_attempted outcomes k budget :
  verdict_from outcomes k (S budget) <> FellThrough.
Proof.
  revert k. induction budget as [|budget IH]; intros k.
  - cbn [verdict_from]. destruct (outcomes k) as [s|e]; [done |].
    by destruct (treated_as_timeout (Raises e)).
  - remember (S budget) as budget' eqn:Hb. cbn [verdict_from].
    destruct (outcomes k) as [s|e]; [done |].
    destruct (treated_as_timeout (Raises e)); [| done].
    specialize (IH (S k)). rewrite Hb. rewrite Hb in IH. cbv beta iota.
    by destruct (verdict_from outcomes (S k) (S budget)).
Qed.

Section LoopFacts.

Variable env : environment.
Variable request : SummaryRequest.

Lemma attempt_once_returns m a st s :
  hf_outcome env (hf_calls st) (text request) = Returns s ->
  attempt_once env request m a st
  = (Return (Break s), after_call request st []).
Proof.
  intros H. unfold attempt_once, bind, hf_client_summarization.
  by rewrite H.
Qed.

Lemma attempt_once_retry m a st :
  treated_as_timeout (hf_outcome env (hf_calls st) (text request)) = true ->
  a < m - 1 ->
  exists line,
    attempt_once env request m a st
    = (Return Continue,
       after_call request st [Print line; Sleep (10 * (a + 1))]).
Proof.
  intros H Ha. apply Z.ltb_lt in Ha.
  unfold attempt_once, bind, hf_client_summarization.
  destruct (hf_outcome env (hf_calls st) (text request)) as [s|[msg|msg]];
    simpl in H; try discriminate H; cbn; rewrite ?H, Ha; cbn;
    eexists; unfold after_call, ret; by rewrite <- !app_assoc.
Qed.

Lemma attempt_once_exhausted m a st :
  treated_as_timeout (hf_outcome env (hf_calls st) (text request)) = true ->
  m - 1 <= a ->
  exists detail,
    attempt_once env request m a st
    = (Raise (HTTPException 504 detail), after_call request st []).
Proof.
  intros H Ha. apply Z.ltb_ge in Ha.
  unfold attempt_once, bind, hf_client_summarization.
  destruct (hf_outcome env (hf_calls st) (text request)) as [s|[msg|msg]];
    simpl in H; try discriminate H; cbn; rewrite ?H, Ha; by eexists.
Qed.

Lemma attempt_once_generic m a st e :
  hf_outcome env (hf_calls st) (text request) = Raises e ->
  treated_as_timeout (Raises e) = false ->
  attempt_once env request m a st
  = (Raise (HTTPException 500 ("AI Error: " +:+ str_exn e)),
     after_call request st []).
Proof.
  intros Ho H. unfold attempt_once, bind, hf_client_summarization.
  rewrite Ho. destruct e as [msg|msg]; simpl in H; [discriminate H |].
  cbn. by rewrite H.
Qed.

Lemma for_attempts_cons m a rest st :
  for_attempts env request m (a :: rest) st =
  match attempt_once env request m a st with
  | (Return (Break s), st') => (Return (Some s), st')
  | (Return Continue, st') => for_attempts env request m rest st'
  | (Raise e, st') => (Raise e, st')
  end.
Proof.
  cbn [for_attempts]. unfold bind at 1.
  by destruct (attempt_once env request m a st) as [[[s|]|e] st'].
Qed.

(** The loop never touches the collection, whatever the attempts. *)
Lemma for_attempts_collection m attempts st :
  collection (snd (for_attempts env request m attempts st)) = collection st.
Proof.
  revert st. induction attempts as [|a rest IH]; intros st; [done |].
  rewrite for_attempts_cons.
  assert (Hpass : collection (snd (attempt_once env request m a st))
                  = collection st).
  { unfold attempt_once, bind, hf_client_summarization, print, time_sleep,
      emit, raise, ret.
    destruct (hf_outcome env (hf_calls st) (text request)) as [s|[msg|msg]];
      repeat case_match; by simplify_eq. }
  destruct (attempt_once env request m a st) as [[[s|]|e] st']; try done.
  simpl in Hpass. by rewrite IH.
Qed.

(** The loop makes at most one inference call per element of the
    list it iterates over. *)
Lemma for_attempts_calls_bound m attempts st :
  (hf_calls (snd (for_attempts env request m attempts st))
   <= hf_calls st + length attempts)%nat.
Proof.
  revert st. induction attempts as [|a rest IH]; intros st; simpl length.
  - simpl. lia.
  - rewrite for_attempts_cons.
    assert (Hpass : hf_calls (snd (attempt_once env request m a st))
                    = S (hf_calls st)).
    { unfold attempt_once, bind, hf_client_summarization, print, time_sleep,
        emit, raise, ret.
      destruct (hf_outcome env (hf_calls st) (text request)) as [s|[msg|msg]];
        repeat case_match; by simplify_eq. }
    destruct (attempt_once env request m a st) as [[[s|]|e] st'];
      simpl in Hpass; simpl; try lia.
    specialize (IH st'). lia.
Qed.

(** The loop implements the retry policy [verdict_from], for any number
    of attempts: started at attempt [a] with [budget] attempts left. *)
Lemma for_attempts_refines m budget : forall a st,
  a + Z.of_nat budget = m ->
  exists tr r,
    for_attempts env request m (seqZ a (Z.of_nat budget)) st
    = (r, mkState (collection st)
            (hf_calls st + length (inference_calls tr))
            (trace st ++ tr)) /\
    inserts tr = [] /\
    match verdict_from (fun k => hf_outcome env k (text request))
            (hf_calls st) budget with
    | Succeeded n s =>
        r = Return (Some s) /\
        skeleton tr = schedule_from (text request)
                        "sshleifer/distilbart-cnn-12-6" a (S n)
    | Failed n e =>
        r = Raise (HTTPException 500 ("AI Error: " +:+ str_exn e)) /\
        skeleton tr = schedule_from (text request)
                        "sshleifer/distilbart-cnn-12-6" a (S n)
    | TimedOut =>
        (exists detail, r = Raise (HTTPException 504 detail)) /\
        skeleton tr = schedule_from (text request)
                        "sshleifer/distilbart-cnn-12-6" a budget
    | FellThrough => r = Return None /\ tr = []
    end.
Proof.
  set (call := Summarization (text request) "sshleifer/distilbart-cnn-12-6").
  induction budget as [|budget IH]; intros a st Hm.
  - exists [], (Return None). simpl. rewrite Nat.add_0_r, app_nil_r.
    by destruct st.
  - rewrite Nat2Z.inj_succ, (seqZ_cons a), Z.pred_succ by lia.
    replace (Z.succ a) with (a + 1) by lia.
    rewrite for_attempts_cons. cbn [verdict_from].
    destruct (hf_outcome env (hf_calls st) (text request)) as [s|e] eqn:Ho.
    { rewrite (attempt_once_returns _ _ _ _ Ho).
      exists [call], (Return (Some s)). split; [| by split].
      unfold after_call. simpl. by rewrite Nat.add_1_r. }
    destruct (treated_as_timeout (Raises e)) eqn:Ht.
    2:{ rewrite (attempt_once_generic _ _ _ _ Ho Ht).
        eexists [call], _. split; [| by split].
        unfold after_call. simpl. by rewrite Nat.add_1_r. }
    rewrite <- Ho in Ht. destruct budget as [|budget].
    { destruct (attempt_once_exhausted m a st Ht) as [detail ->]; [lia |].
      eexists [call], _. split; [| split; [done | split; [by eexists | done]]].
      unfold after_call. simpl. by rewrite Nat.add_1_r. }
    destruct (attempt_once_retry m a st Ht) as [line ->]; [lia |].
    destruct (IH (a + 1)
                (after_call request st [Print line; Sleep (10 * (a + 1))]))
      as (tr & r & -> & Hins & Hv); [lia |].
    exists (call :: Print line :: Sleep (10 * (a + 1)) :: tr), r.
    split.
    { unfold after_call. simpl. rewrite <- app_assoc. simpl.
      do 2 f_equal. lia. }
    split; [done |].
    simpl hf_calls in Hv.
    destruct (verdict_from _ (S (hf_calls st)) (S budget)) as [n s|n e'| |]
      eqn:Hverdict; simpl one_more_retry.
    + destruct Hv as [-> Hsk]. split; [done |].
      rewrite schedule_from_step, <- Hsk. reflexivity.
    + destruct Hv as [-> Hsk]. split; [done |].
      rewrite schedule_from_step, <- Hsk. reflexivity.
    + destruct Hv as [Hd Hsk]. split; [done |].
      rewrite schedule_from_step, <- Hsk. reflexivity.
    + by apply verdict_from_attempted in Hverdict.
Qed.

End LoopFacts.

(** What a verdict says about the outcomes it was read from. *)
Lemma verdict_from_sound outcomes budget : forall k,
  match verdict_from outcomes k budget with
  | Succeeded n s =>
      (n < budget)%nat /\ outcomes (k + n)%nat = Returns s /\
      forall j, (j < n)%nat -> treated_as_timeout (outcomes (k + j)%nat) = true
  | Failed n e =>
      (n < budget)%nat /\ outcomes (k + n)%nat = Raises e /\
      treated_as_timeout (Raises e) = false /\
      forall j, (j < n)%nat -> treated_as_timeout (outcomes (k + j)%nat) = true
  | TimedOut =>
      (0 < budget)%nat /\
      forall j, (j < budget)%nat ->
                treated_as_timeout (outcomes (k + j)%nat) = true
  | FellThrough => budget = O
  end.
Proof.
  induction budget as [|budget IH]; intros k; [done |].
  cbn [verdict_from]. destruct (outcomes k) as [s|e] eqn:Ho.
  { rewrite Nat.add_0_r. repeat split; [lia | done | lia]. }
  destruct (treated_as_timeout (Raises e)) eqn:Ht.
  2:{ rewrite Nat.add_0_r. repeat split; [lia | done | done | lia]. }
  assert (Hhere : forall j, j = O -> treated_as_timeout (outcomes (k + j)%nat) = true).
  { intros j ->. by rewrite Nat.add_0_r, Ho. }
  destruct budget as [|budget].
  { split; [lia |]. intros j Hj. apply Hhere. lia. }
  specialize (IH (S k)).
  destruct (verdict_from outcomes (S k) (S budget)) as [n s|n e'| |];
    cbn [one_more_retry].
  - destruct IH as (Hn & Hs & Hbefore).
    replace (k + S n)%nat with (S k + n)%nat by lia.
    repeat split; [lia | done |]. intros [|j] Hj; [by apply Hhere |].
    replace (k + S j)%nat with (S k + j)%nat by lia. apply Hbefore. lia.
  - destruct IH as (Hn & He & Hf & Hbefore).
    replace (k + S n)%nat with (S k + n)%nat by lia.
    repeat split; [lia | done | done |]. intros [|j] Hj; [by apply Hhere |].
    replace (k + S j)%nat with (S k + j)%nat by lia. apply Hbefore. lia.
  - destruct IH as (_ & Hall). split; [lia |].
    intros [|j] Hj; [by apply Hhere |].
    replace (k + S j)%nat with (S k + j)%nat by lia. apply Hall. lia.
  - discriminate IH.
Qed.

(** ** The summarize handler on a request that passes validation *)

Section SummarizeFacts.

Variable env : environment.
Variable request : SummaryRequest.
Variable coll : list document.
Hypothesis Hvalid : valid request.

(** The run is fixed by the verdict of the retry policy: the response,
    the collection afterwards, and the calls and sleeps performed. *)
Lemma summarize_text_refines :
  exists tr,
    inserts tr = [] /\
    match verdict_of env (text request) with
    | Succeeded n s =>
        run (summarize_text env request) coll
        = (Return (mkSummarizeResponse (str_oid (fresh_oid env)) s
                     (VDate (utcnow env))),
           mkState (coll ++ [stored_record env request s])
             (length (inference_calls tr))
             (tr ++ [InsertOne (stored_record env request s)])) /\
        skeleton tr = schedule (text request) (S n)
    | Failed n e =>
        run (summarize_text env request) coll
        = (Raise (HTTPException 500 ("AI Error: " +:+ str_exn e)),
           mkState coll (length (inference_calls tr)) tr) /\
        skeleton tr = schedule (text request) (S n)
    | TimedOut =>
        (exists detail,
           run (summarize_text env request) coll
           = (Raise (HTTPException 504 detail),
              mkState coll (length (inference_calls tr)) tr)) /\
        skeleton tr = schedule (text request) 3
    | FellThrough => False
    end.
Proof.
  destruct Hvalid as [Hne Hlen].
  destruct (for_attempts_refines env request 3 3 0 (mkState coll 0 []) eq_refl)
    as (tr & r & Hloop & Hins & Hv).
  exists tr. split; [done |].
  assert (Hrun : run (summarize_text env request) coll
                 = bind (for_attempts env request 3 (range 3))
                     (fun bound =>
                        match bound with
                        | None => raise (UnboundLocalError "summary_result")
                        | Some s =>
                            fun st =>
                              (Return (mkSummarizeResponse
                                         (str_oid (fresh_oid env)) s
                                         (VDate (utcnow env))),
                               mkState
                                 (collection st ++ [stored_record env request s])
                                 (hf_calls st)
                                 (trace st ++
                                    [InsertOne (stored_record env request s)]))
                        end)
                     (mkState coll 0 [])).
  { unfold run, summarize_text.
    destruct (decide (text request = "")) as [He|_]; [done |].
    cbv zeta.
    replace (1024 <? Z.of_nat (Str.len (text request))) with false
      by (symmetry; apply Z.ltb_ge; lia).
    unfold bind.
    destruct (for_attempts env request 3 (range 3) (mkState coll 0 []))
      as [[[s|]|e] st']; done. }
  rewrite Hrun. unfold bind. change (range 3) with (seqZ 0 (Z.of_nat 3)).
  rewrite Hloop. unfold verdict_of. cbn [hf_calls collection trace] in *.
  rewrite app_nil_l in *. rewrite Nat.add_0_l in *.
  destruct (verdict_from _ 0 3) as [n s|n e| |] eqn:Hverdict; cbn [app].
  - by destruct Hv as [-> Hsk].
  - by destruct Hv as [-> Hsk].
  - destruct Hv as [[detail ->] Hsk]. split; [by exists detail | done].
  - by apply verdict_from_attempted in Hverdict.
Qed.

End SummarizeFacts.

Lemma times_out_iff env text i :
  times_out env text i <-> treated_as_timeout (hf_outcome env i text) = true.
Proof.
  unfold times_out. split.
  - intros (e & -> & He). by apply StrFacts.treated_as_timeout_spec.
  - destruct (hf_outcome env i text) as [s|e]; [done |].
    intros He. exists e. split; [done |].
    by apply StrFacts.treated_as_timeout_spec.
Qed.

Lemma calls_of_skeleton tr text n :
  skeleton tr = schedule text n -> inference_calls tr = replicate n text.
Proof.
  intros H. rewrite <- inference_calls_skeleton, H.
  apply inference_calls_schedule_from.
Qed.

Lemma sleeps_of_skeleton tr text n :
  skeleton tr = schedule text (S n) ->
  sleeps tr = (fun j => 10 * (j + 1)) <$> seqZ 0 (Z.of_nat n).
Proof.
  intros H. rewrite <- sleeps_skeleton, H. apply sleeps_schedule_from.
Qed.

(** Case analysis on how the retry policy ends for a valid request:
    leaves one goal per verdict, with the run equation [Hrun], the shape
    of the trace [Hsk] and the facts about the outcomes in context. *)
Ltac by_verdict env request coll Hvalid :=
  let tr := fresh "tr" in
  let Hins := fresh "Hins" in
  let Hrun := fresh "Hrun" in
  let Hsound := fresh "Hsound" in
  destruct (summarize_text_refines env request coll Hvalid)
    as (tr & Hins & Hrun);
  pose proof (verdict_from_sound
                (fun k => hf_outcome env k (text request)) 3 0) as Hsound;
  fold (verdict_of env (text request)) in Hsound;
  cbn beta in Hsound;
  destruct (verdict_of env (text request)) as [?n ?s|?n ?e| |];
  [ destruct Hrun as [Hrun ?Hsk]; destruct Hsound as (?Hn & ?Hlast & ?Hbefore)
  | destruct Hrun as [Hrun ?Hsk];
    destruct Hsound as (?Hn & ?Hlast & ?Hgeneric & ?Hbefore)
  | destruct Hrun as [[?detail Hrun] ?Hsk]; destruct Hsound as [_ ?Hall]
  | destruct Hrun ].

(** ** The claims *)

(** C1. For every request whose text passes validation, at most 3
    inference calls are made ([n <= 3]); the calls and sleeps of the run
    are exactly [schedule]: call, sleep 10, call, sleep 20, call, cut after
    the [n]-th call, so the sleep after attempt [i] lasts [10 * (i + 1)]
    seconds and nothing follows the final attempt; attempt [i + 1] is made
    exactly when attempt [i] was made, was classified as a timeout, and
    [i < 2]. *)
Theorem C1_retry_schedule env request coll :
  valid request ->
  let tr := trace (snd (run (summarize_text env request) coll)) in
  let n := length (inference_calls tr) in
  (1 <= n <= 3)%nat /\
  skeleton tr = schedule (text request) n /\
  sleeps tr = take (n - 1) [10; 20] /\
  (forall i, (i < n)%nat -> times_out env (text request) i -> (i < 2)%nat ->
             (S i < n)%nat) /\
  (forall i, (S i < n)%nat -> times_out env (text request) i).
Proof.
  intros Hvalid tr n. subst n tr.
  by_verdict env request coll Hvalid; rewrite Hrun; cbn [snd trace].
  - rewrite inference_calls_app, skeleton_app, sleeps_app.
    rewrite (calls_of_skeleton _ _ _ Hsk), (sleeps_of_skeleton _ _ _ Hsk).
    cbn [inference_calls skeleton sleeps omap list_omap List.filter].
    rewrite !app_nil_r, length_replicate.
    repeat split; [lia | lia | done | | |].
    + by destruct n as [|[|[|]]]; [| | | lia].
    + intros i Hi Ht _. apply times_out_iff in Ht.
      destruct (decide (i = n)) as [->|]; [| lia].
      cbn in Hlast. rewrite Hlast in Ht. discriminate Ht.
    + intros i Hi. apply times_out_iff. apply (Hbefore i). lia.
  - rewrite (calls_of_skeleton _ _ _ Hsk), (sleeps_of_skeleton _ _ _ Hsk).
    rewrite length_replicate.
    repeat split; [lia | lia | done | | |].
    + by destruct n as [|[|[|]]]; [| | | lia].
    + intros i Hi Ht _. apply times_out_iff in Ht.
      destruct (decide (i = n)) as [->|]; [| lia].
      cbn in Hlast. rewrite Hlast, Hgeneric in Ht. discriminate Ht.
    + intros i Hi. apply times_out_iff. apply (Hbefore i). lia.
  - rewrite (calls_of_skeleton _ _ _ Hsk), (sleeps_of_skeleton _ _ _ Hsk).
    rewrite length_replicate.
    split; [lia |]. split; [done |]. split; [reflexivity |].
    split; [intros; lia |].
    intros i Hi. apply times_out_iff. apply (Hall i). lia.
Qed.

Lemma C1_retry_schedule_witness :
  valid sample_request /\
  sleeps (trace (snd (run (summarize_text flaky_env sample_request) [])))
  = take (3 - 1) [10; 20].
Proof.
  assert (Hvalid : valid sample_request).
  { split; [discriminate | vm_compute; lia]. }
  split; [exact Hvalid |].
  exact (proj1 (proj2 (proj2 (C1_retry_schedule flaky_env sample_request []
                                Hvalid)))).
Defined.

(** C2. Whatever exception [e] the inference call raises, on whatever
    attempt: the handler takes the timeout path (sleep and go on to the
    next attempt, or answer 504 when no attempt is left) if and only if
    [e] is the typed inference timeout or its message contains
    ["timed out"] up to letter case; in every other case it takes the
    generic path and answers 500. *)
Theorem C2_timeout_classification env request max_retries attempt st e :
  hf_outcome env (hf_calls st) (text request) = Raises e ->
  let r := fst (attempt_once env request max_retries attempt st) in
  (timeout_classified e <->
   r = Return Continue \/ exists detail, r = Raise (HTTPException 504 detail))
  /\
  (~ timeout_classified e <->
   r = Raise (HTTPException 500 ("AI Error: " +:+ str_exn e))).
Proof.
  intros Ho r. subst r.
  destruct (treated_as_timeout (Raises e)) eqn:Ht.
  - assert (Hc : timeout_classified e)
      by by apply StrFacts.treated_as_timeout_spec.
    rewrite <- Ho in Ht.
    destruct (Z.lt_ge_cases attempt (max_retries - 1)) as [Hlt|Hge].
    + destruct (attempt_once_retry env request _ _ st Ht Hlt) as [line ->].
      cbn [fst]. split; split; [by left | done | done | done].
    + destruct (attempt_once_exhausted env request _ _ st Ht Hge)
        as [detail ->].
      cbn [fst]. split; split; [| done | done | done].
      intros _. right. by exists detail.
  - assert (Hc : ~ timeout_classified e).
    { intros Hc. apply StrFacts.treated_as_timeout_spec in Hc. congruence. }
    rewrite (attempt_once_generic env request _ _ st e Ho Ht). cbn [fst].
    split; split; [done | | done | done].
    by intros [H | [detail H]].
Qed.

Lemma C2_timeout_classification_witness :
  hf_outcome flaky_env 1 (text sample_request)
  = Raises (OtherException "HTTPSConnectionPool: Read Timed Out.") /\
  timeout_classified (OtherException "HTTPSConnectionPool: Read Timed Out.").
Proof.
  assert (Ho : hf_outcome flaky_env (hf_calls (mkState [] 1 []))
                 (text sample_request)
               = Raises (OtherException "HTTPSConnectionPool: Read Timed Out."))
    by reflexivity.
  split; [exact Ho |].
  apply (proj1 (C2_timeout_classification flaky_env sample_request 3 1
                  (mkState [] 1 []) _ Ho)).
  left. reflexivity.
Defined.

(** Validation of the text, in terms of [Str.len]. *)
Lemma summarize_text_validation env request coll :
  let r := fst (run (summarize_text env request) coll) in
  let st := snd (run (summarize_text env request) coll) in
  (text request = "" \/ (1024 < Str.len (text request))%nat ->
   status_of r = 400 /\ trace st = [] /\ collection st = coll) /\
  (text request <> "" /\ (Str.len (text request) <= 1024)%nat ->
   status_of r <> 400 /\
   (exists n, (1 <= n)%nat /\
              inference_calls (trace st) = replicate n (text request)) /\
   collection st = coll ++ inserts (trace st) /\
   Forall (fun d => d !! "original_text" = Some (VStr (text request)))
          (inserts (trace st)) /\
   (forall body, r = Return body ->
      exists d, inserts (trace st) = [d] /\
                d !! "original_text" = Some (VStr (text request))) /\
   (forall e, r = Raise e -> inserts (trace st) = [])).
Proof.
  intros r st. subst r st. split.
  - intros Hbad. unfold run, summarize_text.
    destruct (decide (text request = "")) as [He|Hne]; [done |].
    destruct Hbad as [He|Hlong]; [done |]. cbv zeta.
    replace (1024 <? Z.of_nat (Str.len (text request))) with true
      by (symmetry; apply Z.ltb_lt; lia).
    done.
  - intros Hvalid. fold (valid request) in Hvalid.
    by_verdict env request coll Hvalid; rewrite Hrun;
      cbn [fst snd trace collection status_of].
    + rewrite inference_calls_app, inserts_app, Hins.
      rewrite (calls_of_skeleton _ _ _ Hsk). cbn. rewrite app_nil_r.
      split; [done |]. split; [exists (S n); split; [lia | done] |].
      split; [done |]. split; [by repeat constructor |].
      split; [| done]. intros body _. by eexists.
    + rewrite Hins, (calls_of_skeleton _ _ _ Hsk), app_nil_r.
      split; [done |]. split; [exists (S n); split; [lia | done] |].
      by repeat split.
    + rewrite Hins, (calls_of_skeleton _ _ _ Hsk), app_nil_r.
      split; [done |]. split; [by exists 3%nat; split; [lia |] |].
      by repeat split.
Qed.


(** C3. A request whose text is empty or longer than 1024 characters is
    answered with 400 before anything else happens: no inference call, no
    write, the collection is as before.  For every other text (1 to 1024
    characters) the handler does call the inference client, every call
    carries exactly the request's text, the collection only grows by the
    documents the trace records as inserted, and every inserted document
    holds exactly the request's text as [original_text]; a request that is
    answered normally has inserted exactly one such document, a request
    that ends in an error none.  The length is the number of characters
    [len] counts, whatever the bytes they take: the same is said once
    more for a text given by its code points [cps]. *)
Theorem C3_validation env request coll :
  let r := fst (run (summarize_text env request) coll) in
  let st := snd (run (summarize_text env request) coll) in
  (text request = "" \/ (1024 < Str.len (text request))%nat ->
   status_of r = 400 /\ trace st = [] /\ collection st = coll) /\
  (text request <> "" /\ (Str.len (text request) <= 1024)%nat ->
   status_of r <> 400 /\
   (exists n, (1 <= n)%nat /\
              inference_calls (trace st) = replicate n (text request)) /\
   collection st = coll ++ inserts (trace st) /\
   Forall (fun d => d !! "original_text" = Some (VStr (text request)))
          (inserts (trace st)) /\
   (forall body, r = Return body ->
      exists d, inserts (trace st) = [d] /\
                d !! "original_text" = Some (VStr (text request))) /\
   (forall e, r = Raise e -> inserts (trace st) = [])) /\
  (forall cps, text request = Str.utf8 cps ->
     (cps = [] \/ (1024 < length cps)%nat ->
      status_of r = 400 /\ trace st = [] /\ collection st = coll) /\
     ((1 <= length cps <= 1024)%nat ->
      status_of r <> 400 /\
      (exists n, (1 <= n)%nat /\
                 inference_calls (trace st) = replicate n (Str.utf8 cps)) /\
      Forall (fun d => d !! "original_text" = Some (VStr (Str.utf8 cps)))
             (inserts (trace st)))).
Proof.
  intros r st. subst r st.
  destruct (summarize_text_validation env request coll) as [Hreject Haccept].
  split; [exact Hreject |]. split; [exact Haccept |].
  intros cps Hcps. split.
  - intros Hbad. apply Hreject. rewrite Hcps, StrFacts.len_utf8.
    destruct Hbad as [-> | Hlong]; [by left | by right].
  - intros Hbounds. rewrite <- Hcps.
    destruct Haccept as (Hstatus & Hcalls & _ & Hstored & _); [| done].
    rewrite Hcps, StrFacts.len_utf8. split; [| lia].
    intros He%StrFacts.utf8_empty. subst cps. cbn in Hbounds. lia.
Qed.

Lemma C3_validation_witness :
  (text (mkSummaryRequest "") = "" \/
   (1024 < Str.len (text (mkSummaryRequest "")))%nat) /\
  status_of (fst (run (summarize_text flaky_env (mkSummaryRequest "")) []))
  = 400 /\
  (text sample_request <> "" /\
   (Str.len (text sample_request) <= 1024)%nat) /\
  collection (snd (run (summarize_text flaky_env sample_request) []))
  = [] ++ inserts (trace (snd (run (summarize_text flaky_env sample_request) [])))
  /\
  (1 <= length (replicate 600 233%N) <= 1024)%nat /\
  status_of (fst (run (summarize_text flaky_env accented_request) [])) <> 400.
Proof.
  assert (Hbad : text (mkSummaryRequest "") = "" \/
                 (1024 < Str.len (text (mkSummaryRequest "")))%nat)
    by (left; reflexivity).
  assert (Hvalid : text sample_request <> "" /\
                   (Str.len (text sample_request) <= 1024)%nat).
  { split; [discriminate | vm_compute; lia]. }
  assert (Hchars : (1 <= length (replicate 600 233%N) <= 1024)%nat).
  { rewrite length_replicate. lia. }
  split; [exact Hbad |]. split.
  { exact (proj1 (proj1 (C3_validation flaky_env (mkSummaryRequest "") [])
                    Hbad)). }
  split; [exact Hvalid |]. split.
  { exact (proj1 (proj2 (proj2
             (proj1 (proj2 (C3_validation flaky_env sample_request []))
                Hvalid)))). }
  split; [exact Hchars |].
  exact (proj1 (proj2 (proj2 (proj2 (C3_validation flaky_env accented_request
                                       []))
                         (replicate 600 233%N) eq_refl) Hchars)).
Defined.

Lemma last_schedule_from text model i n :
  last (schedule_from text model i (S n)) = Some (Summarization text model).
Proof.
  revert i. induction n as [|n IH]; intros i; [done |].
  rewrite schedule_from_step. rewrite !last_cons.
  by rewrite (IH (i + 1)).
Qed.

(** C4. When all three inference attempts of a valid request fail with a
    timeout-classified error, the answer is 504, the collection is
    unchanged and no insert was performed, and the handler slept exactly
    twice: 10 seconds, then 20 seconds. *)
Theorem C4_all_attempts_time_out env request coll :
  valid request ->
  (forall i, (i < 3)%nat -> times_out env (text request) i) ->
  let r := fst (run (summarize_text env request) coll) in
  let st := snd (run (summarize_text env request) coll) in
  (exists detail, r = Raise (HTTPException 504 detail)) /\
  status_of r = 504 /\
  collection st = coll /\
  inserts (trace st) = [] /\
  sleeps (trace st) = [10; 20].
Proof.
  intros Hvalid Hall r st. subst r st.
  assert (Ht : forall i, (i < 3)%nat ->
                 treated_as_timeout (hf_outcome env i (text request)) = true).
  { intros i Hi. by apply times_out_iff, Hall. }
  by_verdict env request coll Hvalid.
  - specialize (Ht n Hn). cbn in Hlast. rewrite Hlast in Ht. discriminate Ht.
  - specialize (Ht n Hn). cbn in Hlast. rewrite Hlast, Hgeneric in Ht.
    discriminate Ht.
  - rewrite Hrun. cbn [fst snd trace collection status_of].
    split; [by exists detail |]. repeat split; [done |].
    by rewrite (sleeps_of_skeleton _ _ _ Hsk).
Qed.

Lemma C4_all_attempts_time_out_witness :
  valid sample_request /\
  (forall i, (i < 3)%nat -> times_out cold_env (text sample_request) i) /\
  sleeps (trace (snd (run (summarize_text cold_env sample_request) [])))
  = [10; 20].
Proof.
  assert (Hvalid : valid sample_request).
  { split; [discriminate | vm_compute; lia]. }
  assert (Hall : forall i, (i < 3)%nat ->
                   times_out cold_env (text sample_request) i).
  { intros i _. apply times_out_iff. reflexivity. }
  split; [exact Hvalid |]. split; [exact Hall |].
  exact (proj2 (proj2 (proj2 (proj2
    (C4_all_attempts_time_out cold_env sample_request [] Hvalid Hall))))).
Defined.

(** C5. When attempt [i] of a valid request is made (every earlier attempt
    timed out) and raises an error [e] that is not timeout-classified,
    the answer is 500 with detail ["AI Error: "] followed by the message of
    [e]; the failing call is the last call or sleep of the run, so there
    is neither a further attempt nor a sleep after it (and no sleep at all
    when the error comes on the first attempt); the collection is
    unchanged and no insert was performed. *)
Theorem C5_other_error_fails_at_once env request coll i e :
  valid request ->
  (i < 3)%nat ->
  (forall j, (j < i)%nat -> times_out env (text request) j) ->
  hf_outcome env i (text request) = Raises e ->
  ~ timeout_classified e ->
  let r := fst (run (summarize_text env request) coll) in
  let st := snd (run (summarize_text env request) coll) in
  r = Raise (HTTPException 500 ("AI Error: " +:+ str_exn e)) /\
  status_of r = 500 /\
  length (inference_calls (trace st)) = S i /\
  last (skeleton (trace st))
  = Some (Summarization (text request) "sshleifer/distilbart-cnn-12-6") /\
  sleeps (trace st) = take i [10; 20] /\
  (i = O -> sleeps (trace st) = []) /\
  collection st = coll /\
  inserts (trace st) = [].
Proof.
  intros Hvalid Hi Hprev Ho Hne r st. subst r st.
  assert (Hgen : treated_as_timeout (hf_outcome env i (text request)) = false).
  { rewrite Ho. destruct (treated_as_timeout (Raises e)) eqn:Ht; [| done].
    by apply StrFacts.treated_as_timeout_spec in Ht. }
  assert (Ht : forall j, (j < i)%nat ->
                 treated_as_timeout (hf_outcome env j (text request)) = true).
  { intros j Hj. by apply times_out_iff, Hprev. }
  by_verdict env request coll Hvalid.
  - exfalso. cbn in Hlast. destruct (Nat.lt_trichotomy n i) as [Hlt|[->|Hgt]].
    + specialize (Ht n Hlt). rewrite Hlast in Ht. discriminate Ht.
    + congruence.
    + specialize (Hbefore i Hgt). cbn in Hbefore. congruence.
  - cbn in Hlast. assert (n = i) as ->.
    { destruct (Nat.lt_trichotomy n i) as [Hlt|[->|Hgt]]; [| done |].
      - specialize (Ht n Hlt). rewrite Hlast, Hgeneric in Ht. discriminate Ht.
      - specialize (Hbefore i Hgt). cbn in Hbefore. congruence. }
    assert (e0 = e) as -> by congruence.
    rewrite Hrun. cbn [fst snd trace collection status_of].
    rewrite (calls_of_skeleton _ _ _ Hsk), (sleeps_of_skeleton _ _ _ Hsk), Hsk.
    rewrite length_replicate. unfold schedule. rewrite last_schedule_from.
    split; [done |]. split; [done |]. split; [done |]. split; [done |].
    split; [by destruct i as [|[|[|]]]; [| | | lia] |].
    split; [by intros -> | by split].
  - exfalso. specialize (Hall i Hi). cbn in Hall. congruence.
Qed.

Lemma C5_other_error_fails_at_once_witness :
  valid sample_request /\
  fst (run (summarize_text broken_env sample_request) [])
  = Raise (HTTPException 500 "AI Error: 401 Unauthorized").
Proof.
  assert (Hvalid : valid sample_request).
  { split; [discriminate | vm_compute; lia]. }
  assert (Hne : ~ timeout_classified (OtherException "401 Unauthorized")).
  { intros Hc. apply StrFacts.treated_as_timeout_spec in Hc.
    discriminate Hc. }
  split; [exact Hvalid |].
  refine (proj1 (C5_other_error_fails_at_once broken_env sample_request [] 0
                   (OtherException "401 Unauthorized") Hvalid _ _ eq_refl Hne)).
  - lia.
  - intros j Hj. lia.
Defined.

(** C6. When attempt [i] of a valid request is made (every earlier attempt
    timed out) and succeeds with summary [s], the answer is 200 with a
    body holding the string form of the inserted ObjectId, the summary [s]
    and the creation timestamp; exactly one document is inserted, the
    collection grows by exactly that document, and the document pairs the
    request's text with [s] and carries the same timestamp and id. *)
Theorem C6_success_persists_once env request coll i s :
  valid request ->
  (i < 3)%nat ->
  (forall j, (j < i)%nat -> times_out env (text request) j) ->
  hf_outcome env i (text request) = Returns s ->
  let r := fst (run (summarize_text env request) coll) in
  let st := snd (run (summarize_text env request) coll) in
  exists d oid created_at,
    r = Return (mkSummarizeResponse (str_oid oid) s created_at) /\
    status_of r = 200 /\
    inserts (trace st) = [d] /\
    collection st = coll ++ [d] /\
    d !! "original_text" = Some (VStr (text request)) /\
    d !! "summary_text" = Some (VStr s) /\
    d !! "created_at" = Some created_at /\
    d !! "_id" = Some (VOid oid).
Proof.
  intros Hvalid Hi Hprev Ho r st. subst r st.
  assert (Ht : forall j, (j < i)%nat ->
                 treated_as_timeout (hf_outcome env j (text request)) = true).
  { intros j Hj. by apply times_out_iff, Hprev. }
  by_verdict env request coll Hvalid.
  - cbn in Hlast. assert (n = i) as ->.
    { destruct (Nat.lt_trichotomy n i) as [Hlt|[->|Hgt]]; [| done |].
      - specialize (Ht n Hlt). rewrite Hlast in Ht. discriminate Ht.
      - specialize (Hbefore i Hgt). cbn in Hbefore. rewrite Ho in Hbefore.
        discriminate Hbefore. }
    assert (s0 = s) as -> by congruence.
    exists (stored_record env request s), (fresh_oid env), (VDate (utcnow env)).
    rewrite Hrun. cbn [fst snd trace collection status_of].
    rewrite inserts_app, Hins. by repeat split.
  - exfalso. cbn in Hlast. destruct (Nat.lt_trichotomy n i) as [Hlt|[->|Hgt]].
    + specialize (Ht n Hlt). rewrite Hlast, Hgeneric in Ht. discriminate Ht.
    + congruence.
    + specialize (Hbefore i Hgt). cbn in Hbefore. rewrite Ho in Hbefore.
      discriminate Hbefore.
  - exfalso. specialize (Hall i Hi). cbn in Hall. rewrite Ho in Hall.
    discriminate Hall.
Qed.

Lemma C6_success_persists_once_witness :
  valid sample_request /\
  exists d oid created_at,
    fst (run (summarize_text flaky_env sample_request) [])
    = Return (mkSummarizeResponse (str_oid oid) "A fox jumps over a dog."
                created_at) /\
    collection (snd (run (summarize_text flaky_env sample_request) [])) = [d].
Proof.
  assert (Hvalid : valid sample_request).
  { split; [discriminate | vm_compute; lia]. }
  assert (Hprev : forall j, (j < 2)%nat ->
                    times_out flaky_env (text sample_request) j).
  { intros j Hj. apply times_out_iff.
    destruct j as [|[|j]]; [reflexivity | reflexivity | lia]. }
  split; [exact Hvalid |].
  destruct (C6_success_persists_once flaky_env sample_request [] 2
              "A fox jumps over a dog." Hvalid (Nat.lt_succ_diag_r 2) Hprev
              eq_refl)
    as (d & oid & created_at & Hr & _ & _ & Hcoll & _).
  exists d, oid, created_at. split; [exact Hr | exact Hcoll].
Defined.

(** ** The service as a whole *)

Lemma summarize_text_rejects env request coll :
  text request = "" \/ (1024 < Str.len (text request))%nat ->
  exists detail,
    run (summarize_text env request) coll
    = (Raise (HTTPException 400 detail), mkState coll 0 []).
Proof.
  intros Hbad. unfold run, summarize_text.
  destruct (decide (text request = "")) as [He|Hne]; [by eexists |].
  destruct Hbad as [He|Hlong]; [done |]. cbv zeta.
  replace (1024 <? Z.of_nat (Str.len (text request))) with true
    by (symmetry; apply Z.ltb_lt; lia).
  by eexists.
Qed.

Lemma valid_dec request :
  valid request \/
  (text request = "" \/ (1024 < Str.len (text request))%nat).
Proof.
  unfold valid. destruct (decide (text request = "")) as [He|Hne]; [tauto |].
  destruct (Nat.le_gt_cases (Str.len (text request)) 1024); tauto.
Qed.

Lemma run_dispatch_post env body coll :
  run (dispatch env (POST_summarize body)) coll =
  match run (summarize_text env body) coll with
  | (Return a, st) => (Return (SummarizeBody a), st)
  | (Raise e, st) => (Raise e, st)
  end.
Proof. reflexivity. Qed.

(** One request either leaves the collection as it is, or it is a
    summarize request that went through and appended its record. *)
Lemma serve_step coll env req :
  serve coll (env, req) = coll \/
  exists body i s,
    req = POST_summarize body /\ valid body /\ (i < 3)%nat /\
    hf_outcome env i (text body) = Returns s /\
    status_of (fst (run (dispatch env req) coll)) = 200 /\
    serve coll (env, req) = coll ++ [stored_record env body s].
Proof.
  destruct req as [|body|limit]; [by left | | by left].
  unfold serve. cbn [fst snd]. rewrite run_dispatch_post.
  destruct (valid_dec body) as [Hvalid|Hbad].
  - by_verdict env body coll Hvalid; rewrite Hrun; [| by left | by left].
    right. exists body, n, s. by cbn in Hlast.
  - destruct (summarize_text_rejects env body coll Hbad) as [detail ->].
    by left.
Qed.

Lemma recorded_by_mono steps step d :
  recorded_by steps d -> recorded_by (steps ++ [step]) d.
Proof.
  intros (env & body & i & s & Hin & H). exists env, body, i, s.
  split; [| done]. apply elem_of_app. by left.
Qed.

(** C7. Serving any request either leaves the collection untouched or
    appends one document, and it appends only for a summarize request
    that passed validation, was answered 200, and whose summary was
    returned by one of its inference calls; a request that is not answered
    200 (validation failure, failed inference) therefore inserts nothing;
    the documents already stored are kept as they are by every request
    (none of the three endpoints updates or deletes); and after any
    sequence of requests on an empty collection every stored document has
    a non-empty [original_text] and the [summary_text] returned by a
    successful inference call for that text. *)
Theorem C7_only_successful_summaries_are_stored :
  (forall coll env req,
     serve coll (env, req) = coll \/
     exists body i s d,
       req = POST_summarize body /\ text body <> "" /\ (i < 3)%nat /\
       hf_outcome env i (text body) = Returns s /\
       serve coll (env, req) = coll ++ [d] /\
       d !! "original_text" = Some (VStr (text body)) /\
       d !! "summary_text" = Some (VStr s)) /\
  (forall coll env req,
     status_of (fst (run (dispatch env req) coll)) <> 200 ->
     serve coll (env, req) = coll) /\
  (forall coll step, coll `prefix_of` serve coll step) /\
  (forall steps,
     Forall (fun d => recorded_by steps d /\
                      exists t, t <> "" /\ d !! "original_text" = Some (VStr t))
            (serve_all steps [])).
Proof.
  split; [| split; [| split]].
  - intros coll env req.
    destruct (serve_step coll env req)
      as [Hsame | (body & i & s & -> & [Hne _] & Hi & Ho & _ & Hgrow)];
      [by left |].
    right. by exists body, i, s, (stored_record env body s).
  - intros coll env req Hstatus.
    by destruct (serve_step coll env req)
      as [Hsame | (body & i & s & _ & _ & _ & _ & H200 & _)].
  - intros coll [env req].
    destruct (serve_step coll env req)
      as [-> | (body & i & s & _ & _ & _ & _ & _ & ->)]; [done |].
    by apply prefix_app_r.
  - induction steps as [|[env req] steps IH] using rev_ind; [constructor |].
    unfold serve_all in *. rewrite fold_left_app. cbn [fold_left].
    assert (Hold : Forall
              (fun d => recorded_by (steps ++ [(env, req)]) d /\
                        exists t, t <> "" /\ d !! "original_text" = Some (VStr t))
              (fold_left serve steps [])).
    { eapply Forall_impl; [exact IH |]. intros d [Hrec Ht].
      split; [by apply recorded_by_mono | done]. }
    destruct (serve_step (fold_left serve steps []) env req)
      as [-> | (body & i & s & -> & Hvalid & Hi & Ho & _ & ->)]; [done |].
    apply Forall_app. split; [done |]. constructor; [| constructor].
    split.
    + exists env, body, i, s. split; [| done].
      apply elem_of_app. right. by apply list_elem_of_singleton.
    + exists (text body). by destruct Hvalid.
Qed.

(** ** The history query *)

Module MongoFacts.
Import Mongo.

Lemma string_leb_trans s t u :
  String.leb s t = true -> String.leb t u = true -> String.leb s u = true.
Proof.
  intros Hst Htu. apply Is_true_true.
  apply Is_true_true in Hst, Htu.
  exact (transitivity (R := String.le) Hst Htu).
Qed.

#[global] Instance bson_le_total : Total bson_le.
Proof.
  intros [[s|t|o]|] [[s'|t'|o']|]; unfold bson_le; simpl;
    try (by left); try (by right).
  - apply String.leb_total.
  - destruct (Z.le_ge_cases t t'); [left | right]; by apply Z.leb_le.
  - apply String.leb_total.
Qed.

#[global] Instance bson_le_trans : Transitive bson_le.
Proof.
  intros [[s|t|o]|] [[s'|t'|o']|] [[s''|t''|o'']|]; unfold bson_le; simpl;
    try done.
  - apply string_leb_trans.
  - rewrite !Z.leb_le. lia.
  - apply string_leb_trans.
Qed.

#[global] Instance ordered_before_total key direction :
  Total (ordered_before key direction).
Proof.
  intros d1 d2. unfold ordered_before.
  destruct (direction <? 0); apply bson_le_total.
Qed.

#[global] Instance ordered_before_trans key direction :
  Transitive (ordered_before key direction).
Proof.
  intros d1 d2 d3. unfold ordered_before.
  destruct (direction <? 0); intros H12 H23.
  - exact (bson_le_trans _ _ _ H23 H12).
  - exact (bson_le_trans _ _ _ H12 H23).
Qed.

(** Between dates the order is the order of time. *)
Lemma bson_le_dates a b :
  bson_le (Some (VDate a)) (Some (VDate b)) <-> a <= b.
Proof. unfold bson_le. simpl. apply Z.leb_le. Qed.

Lemma StronglySorted_lookup {A} (R : relation A) (l : list A) i j x y :
  StronglySorted R l -> (i < j)%nat ->
  l !! i = Some x -> l !! j = Some y -> R x y.
Proof.
  intros Hl. revert i j.
  induction Hl as [|z l Hl IH Hall]; intros i j Hij Hi Hj; [done |].
  destruct j as [|j]; [lia |]. destruct i as [|i]; simpl in Hi, Hj.
  - injection Hi as ->. exact (Forall_lookup_1 _ _ _ _ Hall Hj).
  - apply (IH i j); [lia | done | done].
Qed.

Lemma StronglySorted_take {A} (R : relation A) (l : list A) k :
  StronglySorted R l -> StronglySorted R (take k l).
Proof.
  intros Hl. rewrite <- (take_drop k l) in Hl.
  by apply StronglySorted_app in Hl as (_ & Htake & _).
Qed.

End MongoFacts.

(** The documents the history query iterates over, before the cut. *)
Lemma history_sorted coll :
  let sorted := merge_sort (Mongo.ordered_before "created_at" (-1)) coll in
  sorted ≡ₚ coll /\ StronglySorted newest_first sorted.
Proof.
  split; [apply merge_sort_Permutation |].
  apply (StronglySorted_merge_sort (Mongo.ordered_before "created_at" (-1))).
Qed.

Lemma run_get_history limit coll :
  run (get_history limit) coll =
  let sorted := merge_sort (Mongo.ordered_before "created_at" (-1)) coll in
  let history :=
    delete "_id" <$>
      (if limit =? 0 then sorted else take (Z.abs_nat limit) sorted) in
  (Return (mkHistoryResponse (Z.of_nat (length history)) history),
   mkState coll 0 []).
Proof. reflexivity. Qed.

(** C8. For every collection and every positive limit the history
    endpoint answers 200 and leaves the collection as it is; the returned
    list is the first [limit] documents of a rearrangement of the whole
    collection that is sorted by [created_at], newest first, each without
    its ["_id"] field; so it is itself sorted newest first (of two
    returned documents dated [ti] and [tj], the earlier in the list has
    [tj <= ti]) and has [min limit (size of the collection)] elements, at
    most [limit]; on an
    empty collection the count is 0 and the list is empty; a request
    without [limit] is served as one with [limit = 10]. *)
Theorem C8_history_newest_first coll limit :
  0 < limit ->
  let r := fst (run (get_history limit) coll) in
  let st := snd (run (get_history limit) coll) in
  (exists body sorted,
     r = Return body /\ status_of r = 200 /\ collection st = coll /\
     sorted ≡ₚ coll /\ StronglySorted newest_first sorted /\
     data body = delete "_id" <$> take (Z.to_nat limit) sorted /\
     (length (data body) <= Z.to_nat limit)%nat /\
     length (data body) = Nat.min (Z.to_nat limit) (length coll) /\
     StronglySorted newest_first (data body) /\
     (forall i j di dj ti tj,
        (i < j)%nat ->
        data body !! i = Some di -> data body !! j = Some dj ->
        di !! "created_at" = Some (VDate ti) ->
        dj !! "created_at" = Some (VDate tj) ->
        tj <= ti) /\
     Forall (fun d => d !! "_id" = None) (data body) /\
     (coll = [] -> count body = 0 /\ data body = [])) /\
  (forall env,
     run (dispatch env (GET_history None)) coll
     = run (dispatch env (GET_history (Some 10))) coll).
Proof.
  intros Hlimit r st. subst r st. split; [| done].
  rewrite run_get_history. cbv zeta. cbn [fst snd collection status_of].
  destruct (history_sorted coll) as [Hperm Hsorted].
  set (sorted := merge_sort _ coll) in *.
  replace (limit =? 0) with false by (symmetry; apply Z.eqb_neq; lia).
  replace (Z.abs_nat limit) with (Z.to_nat limit) by lia.
  eexists _, sorted. split; [reflexivity |]. cbn [data count].
  assert (Hlen : length (delete "_id" <$> take (Z.to_nat limit) sorted)
                 = Nat.min (Z.to_nat limit) (length coll)).
  { by rewrite length_fmap, length_take, Hperm. }
  split; [done |]. split; [done |]. split; [done |]. split; [done |].
  assert (Hdata : StronglySorted newest_first
                    (delete "_id" <$> take (Z.to_nat limit) sorted)).
  { apply (StronglySorted_fmap _ newest_first newest_first).
    - intros d1 d2. unfold newest_first.
      by rewrite !lookup_delete_ne by discriminate.
    - by apply MongoFacts.StronglySorted_take. }
  split; [done |]. split; [lia |]. split; [done |]. split; [done |].
  split; [| split].
  - intros i j di dj ti tj Hij Hi Hj Hti Htj.
    pose proof (MongoFacts.StronglySorted_lookup _ _ _ _ _ _ Hdata Hij Hi Hj)
      as Hle.
    unfold newest_first in Hle. rewrite Hti, Htj in Hle.
    by apply MongoFacts.bson_le_dates.
  - apply Forall_fmap, Forall_true. intros d. apply lookup_delete_eq.
  - intros ->. apply Permutation_nil_r in Hperm. by rewrite Hperm, take_nil.
Qed.

Lemma C8_history_newest_first_witness :
  0 < 10 /\
  exists body,
    fst (run (get_history 10) fifteen_records) = Return body /\
    length (data body) = 10%nat /\
    ((fun d => d !! "created_at") <$> data body)
    = (fun t => Some (VDate t)) <$> [15; 14; 13; 12; 11; 10; 9; 8; 7; 6].
Proof.
  assert (Hlimit : 0 < 10) by lia.
  split; [exact Hlimit |].
  destruct (proj1 (C8_history_newest_first fifteen_records 10 Hlimit))
    as (body & sorted & Hr & _).
  exists body. split; [exact Hr |].
  assert (Hbody : body = match fst (run (get_history 10) fifteen_records) with
                         | Return b => b
                         | Raise _ => body
                         end) by by rewrite Hr.
  rewrite Hbody. split; vm_compute; reflexivity.
Defined.

(** C9. In every response of the history endpoint, for any collection and
    any limit, [count] is the number of elements of [data]. *)
Theorem C9_count_is_length coll limit :
  exists body,
    fst (run (get_history limit) coll) = Return body /\
    count body = Z.of_nat (length (data body)).
Proof. rewrite run_get_history. by eexists. Qed.

(** C10. With [limit = 0] the history endpoint returns the whole
    collection: the returned list is a rearrangement of all stored
    documents (each without ["_id"]), its count is the size of the
    collection, and it is not empty unless the collection is. *)
Theorem C10_limit_zero_returns_all coll :
  exists body,
    fst (run (get_history 0) coll) = Return body /\
    data body ≡ₚ delete "_id" <$> coll /\
    count body = Z.of_nat (length coll) /\
    (coll <> [] -> data body <> []).
Proof.
  rewrite run_get_history. cbv zeta. cbn [fst Z.eqb].
  destruct (history_sorted coll) as [Hperm _].
  set (sorted := merge_sort _ coll) in *.
  eexists. split; [reflexivity |]. cbn [data count].
  split; [by rewrite Hperm |]. split; [by rewrite length_fmap, Hperm |].
  intros Hne Hnil. apply fmap_nil_inv in Hnil. rewrite Hnil in Hperm.
  by apply Permutation_nil_l in Hperm.
Qed.

(** ** The whole run of a request, event by event *)

Section ExactRun.

Variable env : environment.
Variable request : SummaryRequest.

Lemma attempt_once_retry_exact m a st :
  treated_as_timeout (hf_outcome env (hf_calls st) (text request)) = true ->
  a < m - 1 ->
  attempt_once env request m a st
  = (Return Continue,
     after_call request st
       [Print (retry_notice (hf_outcome env (hf_calls st) (text request)) m a);
        Sleep (10 * (a + 1))]).
Proof.
  intros H Ha. apply Z.ltb_lt in Ha.
  unfold attempt_once, bind, hf_client_summarization.
  destruct (hf_outcome env (hf_calls st) (text request)) as [s|[msg|msg]];
    simpl in H; try discriminate H; cbn; rewrite ?H, Ha; cbn;
    unfold after_call, ret; by rewrite <- !app_assoc.
Qed.

Lemma attempt_once_exhausted_exact m a st :
  treated_as_timeout (hf_outcome env (hf_calls st) (text request)) = true ->
  m - 1 <= a ->
  attempt_once env request m a st
  = (Raise (HTTPException 504
              (timeout_detail (hf_outcome env (hf_calls st) (text request)))),
     after_call request st []).
Proof.
  intros H Ha. apply Z.ltb_ge in Ha.
  unfold attempt_once, bind, hf_client_summarization.
  destruct (hf_outcome env (hf_calls st) (text request)) as [s|[msg|msg]];
    simpl in H; try discriminate H; cbn; by rewrite ?H, Ha.
Qed.

(** The loop as a function of the verdict, for any number of attempts:
    result, collection and every event of the trace. *)
Lemma for_attempts_exact m budget : forall a st,
  a + Z.of_nat budget = m ->
  for_attempts env request m (seqZ a (Z.of_nat budget)) st =
  match verdict_from (fun k => hf_outcome env k (text request))
          (hf_calls st) budget with
  | Succeeded n s =>
      (Return (Some s),
       extended st (loop_events env (text request) m a (hf_calls st) n) (S n))
  | Failed n e =>
      (Raise (HTTPException 500 ("AI Error: " +:+ str_exn e)),
       extended st (loop_events env (text request) m a (hf_calls st) n) (S n))
  | TimedOut =>
      (Raise (HTTPException 504
                (timeout_detail
                   (hf_outcome env (hf_calls st + (budget - 1)) (text request)))),
       extended st
         (loop_events env (text request) m a (hf_calls st) (budget - 1)) budget)
  | FellThrough => (Return None, st)
  end.
Proof.
  induction budget as [|budget IH]; intros a st Hm; [done |].
  rewrite Nat2Z.inj_succ, (seqZ_cons a), Z.pred_succ by lia.
  replace (Z.succ a) with (a + 1) by lia.
  rewrite for_attempts_cons. cbn [verdict_from].
  destruct (hf_outcome env (hf_calls st) (text request)) as [s|e] eqn:Ho.
  { rewrite (attempt_once_returns _ _ _ _ _ _ Ho).
    unfold after_call, extended. cbn [loop_events]. by rewrite Nat.add_1_r. }
  destruct (treated_as_timeout (Raises e)) eqn:Ht.
  2:{ rewrite (attempt_once_generic _ _ _ _ _ _ Ho Ht).
      unfold after_call, extended. cbn [loop_events]. by rewrite Nat.add_1_r. }
  rewrite <- Ho in Ht. destruct budget as [|budget].
  { rewrite (attempt_once_exhausted_exact m a st Ht) by lia.
    unfold after_call, extended. cbn [loop_events Nat.sub].
    by rewrite Nat.add_0_r, Nat.add_1_r. }
  rewrite (attempt_once_retry_exact m a st Ht) by lia.
  rewrite (IH (a + 1)) by lia. cbn [after_call hf_calls].
  destruct (verdict_from _ (S (hf_calls st)) (S budget)) as [n s|n e'| |]
    eqn:Hverdict; cbn [one_more_retry].
  - unfold extended, after_call. cbn [collection hf_calls trace loop_events].
    rewrite <- app_assoc. cbn [app]. do 2 f_equal. lia.
  - unfold extended, after_call. cbn [collection hf_calls trace loop_events].
    rewrite <- app_assoc. cbn [app]. do 2 f_equal. lia.
  - unfold extended, after_call. cbn [collection hf_calls trace].
    replace (S (S budget) - 1)%nat with (S (S budget - 1)) by lia.
    cbn [loop_events]. rewrite <- app_assoc. cbn [app].
    replace (hf_calls st + S (S budget - 1))%nat
      with (S (hf_calls st) + (S budget - 1))%nat by lia.
    do 2 f_equal. lia.
  - by apply verdict_from_attempted in Hverdict.
Qed.

(** A valid request, as a function of the verdict of its three attempts. *)
Lemma summarize_text_exact coll :
  valid request ->
  run (summarize_text env request) coll =
  match verdict_of env (text request) with
  | Succeeded n s =>
      (Return (mkSummarizeResponse (str_oid (fresh_oid env)) s
                 (VDate (utcnow env))),
       mkState (coll ++ [stored_record env request s]) (S n)
         (loop_events env (text request) 3 0 0 n
            ++ [InsertOne (stored_record env request s)]))
  | Failed n e =>
      (Raise (HTTPException 500 ("AI Error: " +:+ str_exn e)),
       mkState coll (S n) (loop_events env (text request) 3 0 0 n))
  | TimedOut =>
      (Raise (HTTPException 504
                (timeout_detail (hf_outcome env 2 (text request)))),
       mkState coll 3 (loop_events env (text request) 3 0 0 2))
  | FellThrough =>
      (Raise (UnboundLocalError "summary_result"), mkState coll 0 [])
  end.
Proof.
  intros [Hne Hlen]. unfold run, summarize_text.
  destruct (decide (text request = "")) as [He|_]; [done |].
  cbv zeta.
  replace (1024 <? Z.of_nat (Str.len (text request))) with false
    by (symmetry; apply Z.ltb_ge; lia).
  unfold bind. change (range 3) with (seqZ 0 (Z.of_nat 3)).
  rewrite (for_attempts_exact 3 3 0 _ eq_refl). unfold verdict_of.
  cbn [hf_calls].
  by destruct (verdict_from _ 0 3) as [n s|n e| |].
Qed.

(** A request that fails validation, with the detail of its answer. *)
Lemma summarize_text_rejects_exact coll :
  ~ valid request ->
  run (summarize_text env request) coll =
  (Raise (HTTPException 400
            (if decide (text request = "") then "Text cannot be empty"
             else "Text too long. Maximum 1024 characters allowed.")),
   mkState coll 0 []).
Proof.
  intros Hbad. unfold run, summarize_text.
  destruct (decide (text request = "")) as [He|Hne]; [done |].
  cbv zeta.
  replace (1024 <? Z.of_nat (Str.len (text request))) with true; [done |].
  symmetry. apply Z.ltb_lt.
  destruct (Nat.le_gt_cases (Str.len (text request)) 1024); [| lia].
  by destruct Hbad.
Qed.

End ExactRun.

(** ** Reading the verdict off the outcomes *)

Lemma not_valid_iff request :
  ~ valid request <->
  text request = "" \/ (1024 < Str.len (text request))%nat.
Proof.
  unfold valid. split.
  - intros Hbad. destruct (decide (text request = "")) as [He|Hne]; [by left |].
    right. destruct (Nat.le_gt_cases (Str.len (text request)) 1024);
      [by destruct Hbad | done].
  - intros [He|Hlong] [Hne Hlen]; [done | lia].
Qed.

Lemma verdict_of_succeeds env text i s :
  (i < 3)%nat ->
  (forall j, (j < i)%nat -> times_out env text j) ->
  hf_outcome env i text = Returns s ->
  verdict_of env text = Succeeded i s.
Proof.
  intros Hi Hprev Ho.
  assert (Ht : forall j, (j < i)%nat ->
                 treated_as_timeout (hf_outcome env j text) = true).
  { intros j Hj. by apply times_out_iff, Hprev. }
  pose proof (verdict_from_sound (fun k => hf_outcome env k text) 3 0) as Hs.
  fold (verdict_of env text) in Hs. cbn beta in Hs.
  destruct (verdict_of env text) as [n s'|n e| |].
  - destruct Hs as (Hn & Hlast & Hbefore). cbn in Hlast.
    destruct (Nat.lt_trichotomy n i) as [Hlt|[->|Hgt]].
    + specialize (Ht n Hlt). rewrite Hlast in Ht. discriminate Ht.
    + congruence.
    + specialize (Hbefore i Hgt). cbn in Hbefore. rewrite Ho in Hbefore.
      discriminate Hbefore.
  - destruct Hs as (Hn & Hlast & Hgeneric & Hbefore). cbn in Hlast.
    destruct (Nat.lt_trichotomy n i) as [Hlt|[->|Hgt]].
    + specialize (Ht n Hlt). rewrite Hlast, Hgeneric in Ht. discriminate Ht.
    + congruence.
    + specialize (Hbefore i Hgt). cbn in Hbefore. rewrite Ho in Hbefore.
      discriminate Hbefore.
  - destruct Hs as [_ Hall]. specialize (Hall i Hi). cbn in Hall.
    rewrite Ho in Hall. discriminate Hall.
  - discriminate Hs.
Qed.

Lemma verdict_of_timed_out env text :
  (forall i, (i < 3)%nat -> times_out env text i) ->
  verdict_of env text = TimedOut.
Proof.
  intros Hall.
  assert (Ht : forall i, (i < 3)%nat ->
                 treated_as_timeout (hf_outcome env i text) = true).
  { intros i Hi. by apply times_out_iff, Hall. }
  pose proof (verdict_from_sound (fun k => hf_outcome env k text) 3 0) as Hs.
  fold (verdict_of env text) in Hs. cbn beta in Hs.
  destruct (verdict_of env text) as [n s|n e| |]; [| | done | discriminate Hs].
  - destruct Hs as (Hn & Hlast & _). cbn in Hlast.
    specialize (Ht n Hn). rewrite Hlast in Ht. discriminate Ht.
  - destruct Hs as (Hn & Hlast & Hgeneric & _). cbn in Hlast.
    specialize (Ht n Hn). rewrite Hlast, Hgeneric in Ht. discriminate Ht.
Qed.

Lemma succeeds_with_verdict env text s :
  succeeds_with env text s <-> exists n, verdict_of env text = Succeeded n s.
Proof.
  split.
  - intros (i & Hi & Hprev & Ho). exists i. by apply verdict_of_succeeds.
  - intros [n Hv].
    pose proof (verdict_from_sound (fun k => hf_outcome env k text) 3 0) as Hs.
    fold (verdict_of env text) in Hs. rewrite Hv in Hs. cbn in Hs.
    destruct Hs as (Hn & Hlast & Hbefore). exists n.
    split; [done |]. split; [| done].
    intros j Hj. by apply times_out_iff, Hbefore.
Qed.

(** Case analysis on a valid request with the exact run in the goal:
    one goal per verdict that can occur, with the number of retries
    replaced by 0, 1 and 2 in turn. *)
Ltac by_exact_run env request coll Hvalid :=
  let Hs := fresh "Hsound" in
  let Hv := fresh "Hverdict" in
  rewrite !(summarize_text_exact env request _ Hvalid);
  pose proof (verdict_from_sound
                (fun k => hf_outcome env k (text request)) 3 0) as Hs;
  fold (verdict_of env (text request)) in Hs; cbn beta in Hs;
  destruct (verdict_of env (text request)) as [?n ?s|?n ?e| |] eqn:Hv;
  [ destruct Hs as (?Hn & ?Hlast & ?Hbefore)
  | destruct Hs as (?Hn & ?Hlast & ?Hgeneric & ?Hbefore)
  | destruct Hs as [_ ?Hall]
  | discriminate Hs ].

(** ** Further properties of the summarize handler *)



(** X2. When all three attempts of a valid request time out, the detail
    of the 504 answer is decided by the third failure alone: the typed
    timeout gives ["Model timeout. Please try again."], a timeout
    recognised by its message gives the "warming up" text, whatever kind
    the first two failures were. *)
Theorem X2_detail_of_504 env request coll e :
  valid request ->
  (forall i, (i < 3)%nat -> times_out env (text request) i) ->
  hf_outcome env 2 (text request) = Raises e ->
  fst (run (summarize_text env request) coll)
  = Raise (HTTPException 504
      match e with
      | InferenceTimeoutError _ => "Model timeout. Please try again."
      | OtherException _ =>
          "Connection timeout. The model is warming up. Please try again in a moment."
      end).
Proof.
  intros Hvalid Hall Ho.
  rewrite (summarize_text_exact env request coll Hvalid).
  rewrite (verdict_of_timed_out _ _ Hall). cbn [fst]. rewrite Ho.
  by destruct e.
Qed.

Lemma X2_detail_of_504_witness :
  valid sample_request /\
  fst (run (summarize_text cold_env sample_request) [])
  = Raise (HTTPException 504
      "Connection timeout. The model is warming up. Please try again in a moment.").
Proof.
  assert (Hvalid : valid sample_request).
  { split; [discriminate | vm_compute; lia]. }
  assert (Hall : forall i, (i < 3)%nat ->
                   times_out cold_env (text sample_request) i).
  { intros i _. apply times_out_iff. reflexivity. }
  split; [exact Hvalid |].
  exact (X2_detail_of_504 cold_env sample_request []
           (OtherException "The read operation timed out")
           Hvalid Hall eq_refl).
Defined.

(** X3. Console and sleeps of a valid request: every sleep is announced
    by exactly one printed line right before it, and nothing else is
    printed.  The line before the 10 second sleep reads
    ["Timeout, retrying in 10s... (attempt 2/3)"] when the first failure
    was the typed timeout and ["Read timeout, ..."] otherwise; the line
    before the 20 second sleep is the same with [20s] and [3/3], chosen
    by the second failure. *)
Theorem X3_console env request coll :
  valid request ->
  let tr := trace (snd (run (summarize_text env request) coll)) in
  let typed i := is_typed_timeout (hf_outcome env i (text request)) in
  announcements tr =
  take (2 * (length (inference_calls tr) - 1))
    [Print (if typed 0%nat
            then "Timeout, retrying in 10s... (attempt 2/3)"
            else "Read timeout, retrying in 10s... (attempt 2/3)");
     Sleep 10;
     Print (if typed 1%nat
            then "Timeout, retrying in 20s... (attempt 3/3)"
            else "Read timeout, retrying in 20s... (attempt 3/3)");
     Sleep 20].
Proof.
  intros Hvalid tr typed. subst tr typed.
  by_exact_run env request coll Hvalid; cbn [snd trace].
  - destruct n as [|[|[|]]]; [| | | lia]; cbn [loop_events app];
      unfold retry_notice;
      repeat destruct (is_typed_timeout _); reflexivity.
  - destruct n as [|[|[|]]]; [| | | lia]; cbn [loop_events app];
      unfold retry_notice;
      repeat destruct (is_typed_timeout _); reflexivity.
  - cbn [loop_events app]. unfold retry_notice.
    repeat destruct (is_typed_timeout _); reflexivity.
Qed.

Lemma X3_console_witness :
  valid sample_request /\
  announcements (trace (snd (run (summarize_text flaky_env sample_request) [])))
  = [Print "Timeout, retrying in 10s... (attempt 2/3)"; Sleep 10;
     Print "Read timeout, retrying in 20s... (attempt 3/3)"; Sleep 20].
Proof.
  assert (Hvalid : valid sample_request).
  { split; [discriminate | vm_compute; lia]. }
  split; [exact Hvalid |].
  exact (X3_console flaky_env sample_request [] Hvalid).
Defined.

(** X4. The time one request spends sleeping is fixed by the number of
    inference calls it makes: nothing for at most one call, 10 seconds for
    two, 30 seconds for three; so never more than 30 seconds, for any
    request, valid or not. *)
Theorem X4_time_asleep env request coll :
  let tr := trace (snd (run (summarize_text env request) coll)) in
  let asleep := foldr Z.add 0 (sleeps tr) in
  asleep = match length (inference_calls tr) with
           | 3%nat => 30
           | 2%nat => 10
           | _ => 0
           end /\
  0 <= asleep <= 30.
Proof.
  intros tr asleep. subst asleep tr.
  destruct (decide (valid request)) as [Hvalid|Hbad].
  - by_exact_run env request coll Hvalid; cbn [snd trace].
    + destruct n as [|[|[|]]]; [| | | lia]; cbn; lia.
    + destruct n as [|[|[|]]]; [| | | lia]; cbn; lia.
    + cbn. lia.
  - rewrite (summarize_text_rejects_exact env request coll Hbad). cbn. lia.
Qed.

(** X5. The handler never looks at what is stored: for two collections
    whatsoever the answer, the number of inference calls and the whole
    trace of effects are the same, and the collection afterwards is the
    one before followed by the inserted documents.  So there is no
    caching and no check for an earlier summary of the same text. *)
Theorem X5_blind_to_the_store env request coll coll' :
  let run1 := run (summarize_text env request) coll in
  let run2 := run (summarize_text env request) coll' in
  fst run1 = fst run2 /\
  trace (snd run1) = trace (snd run2) /\
  hf_calls (snd run1) = hf_calls (snd run2) /\
  collection (snd run1) = coll ++ inserts (trace (snd run1)) /\
  collection (snd run2) = coll' ++ inserts (trace (snd run1)).
Proof.
  intros run1 run2. subst run1 run2.
  assert (Hquiet : forall k n,
            inserts (loop_events env (text request) 3 0 k n) = []).
  { intros k n. generalize 0. revert k.
    induction n as [|n IH]; intros k a; [done |].
    cbn [loop_events inserts omap list_omap]. apply IH. }
  destruct (decide (valid request)) as [Hvalid|Hbad].
  - by_exact_run env request coll Hvalid;
      cbn [fst snd trace hf_calls collection];
      rewrite ?inserts_app, ?Hquiet, ?app_nil_r; done.
  - rewrite !(summarize_text_rejects_exact env request _ Hbad).
    cbn. by rewrite !app_nil_r.
Qed.

(** ** Requests in sequence: summarize, then history *)

Lemma serve_success env request coll s :
  valid request ->
  succeeds_with env (text request) s ->
  serve coll (env, POST_summarize request)
  = coll ++ [stored_record env request s].
Proof.
  intros Hvalid [n Hv]%succeeds_with_verdict.
  unfold serve. cbn [fst snd]. rewrite run_dispatch_post.
  by rewrite (summarize_text_exact env request coll Hvalid), Hv.
Qed.

Lemma dom_stored_record env request s :
  dom (stored_record env request s) = record_fields.
Proof.
  unfold stored_record, record_fields.
  rewrite !dom_insert_L, dom_empty_L. set_solver.
Qed.

Lemma history_fields_spec : record_fields ∖ {["_id"]} = history_fields.
Proof. unfold record_fields, history_fields. set_solver. Qed.

(** X6. Nothing is deduplicated: when the same valid text is summarized
    twice and both requests succeed, the collection grows by two records,
    in the order of the requests, each with that text as
    [original_text]. *)
Theorem X6_same_text_twice env1 env2 request coll s1 s2 :
  valid request ->
  succeeds_with env1 (text request) s1 ->
  succeeds_with env2 (text request) s2 ->
  exists d1 d2,
    serve_all [(env1, POST_summarize request); (env2, POST_summarize request)]
      coll
    = coll ++ [d1; d2] /\
    d1 !! "original_text" = Some (VStr (text request)) /\
    d2 !! "original_text" = Some (VStr (text request)) /\
    d1 !! "summary_text" = Some (VStr s1) /\
    d2 !! "summary_text" = Some (VStr s2).
Proof.
  intros Hvalid H1 H2.
  exists (stored_record env1 request s1), (stored_record env2 request s2).
  split; [| done]. unfold serve_all. cbn [fold_left].
  rewrite (serve_success _ _ _ _ Hvalid H1), (serve_success _ _ _ _ Hvalid H2).
  by rewrite <- app_assoc.
Qed.

Lemma X6_same_text_twice_witness :
  valid sample_request /\
  succeeds_with flaky_env (text sample_request) "A fox jumps over a dog." /\
  succeeds_with prompt_env (text sample_request) "A fox jumps over a dog." /\
  length (serve_all [(flaky_env, POST_summarize sample_request);
                     (prompt_env, POST_summarize sample_request)] [])
  = 2%nat.
Proof.
  assert (Hvalid : valid sample_request).
  { split; [discriminate | vm_compute; lia]. }
  assert (H1 : succeeds_with flaky_env (text sample_request)
                 "A fox jumps over a dog.").
  { exists 2%nat. split; [lia |]. split; [| reflexivity].
    intros j Hj. apply times_out_iff.
    destruct j as [|[|j]]; [reflexivity | reflexivity | lia]. }
  assert (H2 : succeeds_with prompt_env (text sample_request)
                 "A fox jumps over a dog.").
  { exists 0%nat. split; [lia |]. split; [| reflexivity]. intros j Hj. lia. }
  split; [exact Hvalid |]. split; [exact H1 |]. split; [exact H2 |].
  destruct (X6_same_text_twice flaky_env prompt_env sample_request []
              _ _ Hvalid H1 H2) as (d1 & d2 & Hcoll & _).
  rewrite Hcoll. reflexivity.
Defined.

(** X7. Shape of the data.  After any sequence of requests on an empty
    collection, every stored document has exactly the four fields
    ["_id"], ["original_text"], ["summary_text"] and ["created_at"], an
    ObjectId, two strings and a date; and every entry the history
    endpoint returns from it, for any limit, has exactly the other three
    fields. *)
Theorem X7_shape_of_records steps limit :
  let coll := serve_all steps [] in
  Forall (fun d =>
            dom d = record_fields /\
            (exists o, d !! "_id" = Some (VOid o)) /\
            (exists t, d !! "original_text" = Some (VStr t)) /\
            (exists s, d !! "summary_text" = Some (VStr s)) /\
            (exists t, d !! "created_at" = Some (VDate t)))
         coll /\
  exists body,
    fst (run (get_history limit) coll) = Return body /\
    Forall (fun d => dom d = history_fields) (data body).
Proof.
  intros coll. subst coll.
  assert (Hshape : Forall (fun d =>
            dom d = record_fields /\
            (exists o, d !! "_id" = Some (VOid o)) /\
            (exists t, d !! "original_text" = Some (VStr t)) /\
            (exists s, d !! "summary_text" = Some (VStr s)) /\
            (exists t, d !! "created_at" = Some (VDate t)))
           (serve_all steps [])).
  { induction steps as [|[env req] steps IH] using rev_ind; [constructor |].
    unfold serve_all in *. rewrite fold_left_app. cbn [fold_left].
    destruct (serve_step (fold_left serve steps []) env req)
      as [-> | (body & i & s & _ & _ & _ & _ & _ & ->)]; [done |].
    apply Forall_app. split; [done |]. constructor; [| constructor].
    split; [apply dom_stored_record |]. repeat split; by eexists. }
  split; [done |].
  rewrite run_get_history. cbv zeta. cbn [fst].
  eexists. split; [reflexivity |]. cbn [data].
  destruct (history_sorted (serve_all steps [])) as [Hperm _].
  set (sorted := merge_sort _ (serve_all steps [])) in *.
  assert (Hsorted : Forall (fun d => dom d = record_fields) sorted).
  { rewrite Hperm. eapply Forall_impl; [exact Hshape |].
    by intros d [Hd _]. }
  apply Forall_fmap.
  assert (Hcut : Forall (fun d => dom d = record_fields)
                   (if limit =? 0 then sorted
                    else take (Z.abs_nat limit) sorted)).
  { destruct (limit =? 0); [done | by apply Forall_take]. }
  eapply Forall_impl; [exact Hcut |]. intros d Hd. cbn.
  by rewrite dom_delete_L, Hd, history_fields_spec.
Qed.

(** X8. A summary that has just been stored is listed: after a successful
    summarize request, the history with [limit = 0] contains an entry
    with the request's text and the summary and without ["_id"], and its
    count is one more than the number of documents stored before. *)
Theorem X8_stored_then_listed env request coll s :
  valid request ->
  succeeds_with env (text request) s ->
  let coll' := serve coll (env, POST_summarize request) in
  exists body entry,
    fst (run (get_history 0) coll') = Return body /\
    entry ∈ data body /\
    entry !! "original_text" = Some (VStr (text request)) /\
    entry !! "summary_text" = Some (VStr s) /\
    entry !! "_id" = None /\
    count body = Z.of_nat (length coll) + 1.
Proof.
  intros Hvalid Hs coll'. subst coll'.
  rewrite (serve_success _ _ _ _ Hvalid Hs).
  rewrite run_get_history. cbv zeta. cbn [fst Z.eqb].
  destruct (history_sorted (coll ++ [stored_record env request s]))
    as [Hperm _].
  set (sorted := merge_sort _ _) in *.
  eexists _, (delete "_id" (stored_record env request s)).
  split; [reflexivity |]. cbn [data count].
  split; [| split; [done | split; [done | split; [done |]]]].
  - apply list_elem_of_fmap. exists (stored_record env request s).
    split; [done |]. rewrite Hperm. apply elem_of_app. right.
    by apply list_elem_of_singleton.
  - rewrite length_fmap, Hperm, length_app. cbn. lia.
Qed.

Lemma X8_stored_then_listed_witness :
  valid sample_request /\
  succeeds_with prompt_env (text sample_request) "A fox jumps over a dog." /\
  exists body,
    fst (run (get_history 0)
           (serve fifteen_records (prompt_env, POST_summarize sample_request)))
    = Return body /\
    count body = 16.
Proof.
  assert (Hvalid : valid sample_request).
  { split; [discriminate | vm_compute; lia]. }
  assert (Hs : succeeds_with prompt_env (text sample_request)
                 "A fox jumps over a dog.").
  { exists 0%nat. split; [lia |]. split; [| reflexivity]. intros j Hj. lia. }
  split; [exact Hvalid |]. split; [exact Hs |].
  destruct (X8_stored_then_listed prompt_env sample_request fifteen_records
              _ Hvalid Hs) as (body & entry & Hr & _ & _ & _ & _ & Hc).
  exists body. split; [exact Hr | exact Hc].
Defined.



(** ** The handler without a store handle *)

Section Halves.

Variable env : environment.
Variable request : SummaryRequest.

(** The two halves put together are the handler. *)
Lemma summarize_text_halves st :
  summarize_text env request st =
  bind (summarize_until_record env request) (save_and_answer env request) st.
Proof.
  unfold summarize_text, summarize_until_record.
  destruct (decide (text request = "")); [done |]. cbv zeta.
  destruct (1024 <? Z.of_nat (Str.len (text request))); [done |].
  unfold bind.
  by destruct (for_attempts env request 3 (range 3) st) as [[[s|]|e] st'].
Qed.

Lemma summarize_until_record_exact coll :
  valid request ->
  summarize_until_record env request (mkState coll 0 []) =
  match verdict_of env (text request) with
  | Succeeded n s =>
      (Return s, mkState coll (S n) (loop_events env (text request) 3 0 0 n))
  | Failed n e =>
      (Raise (HTTPException 500 ("AI Error: " +:+ str_exn e)),
       mkState coll (S n) (loop_events env (text request) 3 0 0 n))
  | TimedOut =>
      (Raise (HTTPException 504
                (timeout_detail (hf_outcome env 2 (text request)))),
       mkState coll 3 (loop_events env (text request) 3 0 0 2))
  | FellThrough =>
      (Raise (UnboundLocalError "summary_result"), mkState coll 0 [])
  end.
Proof.
  intros [Hne Hlen]. unfold summarize_until_record.
  destruct (decide (text request = "")) as [He|_]; [done |].
  cbv zeta.
  replace (1024 <? Z.of_nat (Str.len (text request))) with false
    by (symmetry; apply Z.ltb_ge; lia).
  unfold bind. change (range 3) with (seqZ 0 (Z.of_nat 3)).
  rewrite (for_attempts_exact env request 3 3 0 _ eq_refl). unfold verdict_of.
  cbn [hf_calls].
  by destruct (verdict_from _ 0 3) as [n s|n e| |].
Qed.

Lemma summarize_until_record_rejects coll :
  ~ valid request ->
  summarize_until_record env request (mkState coll 0 []) =
  (Raise (HTTPException 400
            (if decide (text request = "") then "Text cannot be empty"
             else "Text too long. Maximum 1024 characters allowed.")),
   mkState coll 0 []).
Proof.
  intros Hbad. unfold summarize_until_record.
  destruct (decide (text request = "")) as [He|Hne]; [done |].
  cbv zeta.
  replace (1024 <? Z.of_nat (Str.len (text request))) with true; [done |].
  symmetry. apply Z.ltb_lt. apply not_valid_iff in Hbad.
  destruct Hbad as [He|Hlong]; [done | lia].
Qed.

End Halves.

(** X1. Lines 67 to 115 of [summarize_text], validation and the retry
    loop, which never touch the store, end in one of six ways and in no
    other: [summary_result] is bound and the handler goes on to line 116,
    or one of five [HTTPException]s is raised: 400 for the empty text, 400
    for a text over 1024 characters, 500 with ["AI Error: "] and the
    message of an exception, or one of the two 504 answers.  Line 116 is
    never reached with [summary_result] unbound.  Each of the two
    rejections is raised for exactly the texts it names.  With a store
    handle that is bound and an insert that goes through, the handler then
    answers 200 with that very summary, and in the five other cases it
    ends with the same exception. *)
Theorem X1_ways_to_end env request coll :
  let front := fst (summarize_until_record env request (mkState coll 0 [])) in
  let r := fst (run (summarize_text env request) coll) in
  ((exists s, front = Return s) \/
   front = Raise (HTTPException 400 "Text cannot be empty") \/
   front = Raise (HTTPException 400
                    "Text too long. Maximum 1024 characters allowed.") \/
   (exists e, front = Raise (HTTPException 500 ("AI Error: " +:+ str_exn e))) \/
   front = Raise (HTTPException 504 "Model timeout. Please try again.") \/
   front = Raise (HTTPException 504
     "Connection timeout. The model is warming up. Please try again in a moment."))
  /\
  (text request = "" <->
   front = Raise (HTTPException 400 "Text cannot be empty")) /\
  (text request <> "" /\ (1024 < Str.len (text request))%nat <->
   front = Raise (HTTPException 400
                    "Text too long. Maximum 1024 characters allowed.")) /\
  match front with
  | Return s => exists body, r = Return body /\ summary body = s
  | Raise e => r = Raise e
  end.
Proof.
  intros front r. subst front r.
  destruct (decide (valid request)) as [Hvalid|Hbad].
  - rewrite (summarize_until_record_exact env request coll Hvalid).
    rewrite (summarize_text_exact env request coll Hvalid).
    destruct Hvalid as [Hne Hlen].
    pose proof (verdict_from_attempted
                  (fun k => hf_outcome env k (text request)) 0 2) as Hsome.
    fold (verdict_of env (text request)) in Hsome.
    destruct (verdict_of env (text request)) as [n s|n e| |]; cbn [fst];
      [| | | done].
    + split; [left; by eexists |].
      split; [by split |]. split; [split; [lia | done] |]. by eexists.
    + split; [do 3 right; left; by eexists |].
      split; [by split |]. split; [split; [lia | done] | done].
    + split.
      { do 4 right. unfold timeout_detail.
        destruct (is_typed_timeout _); [by left | by right]. }
      split; [by split |]. split; [split; [lia | done] | done].
  - rewrite (summarize_until_record_rejects env request coll Hbad).
    rewrite (summarize_text_rejects_exact env request coll Hbad). cbn [fst].
    apply not_valid_iff in Hbad.
    destruct (decide (text request = "")) as [He|Hne].
    + split; [right; by left |]. split; [done |].
      split; [split; [by intros [? _] | done] | done].
    + destruct Hbad as [He|Hlong]; [done |].
      split; [do 2 right; by left |]. split; [by split |].
      split; [done | done].
Qed.

(** X10. Without a store handle (the global [collection] was never bound
    because the client could not be constructed at start-up) the handler
    behaves as with one up to the insert: the same inference calls, the
    same printed lines and sleeps; a request that would have been rejected
    or would have failed gets the very same error; a request that would
    have been answered 200 ends with [NameError] on [collection] after
    all of that work; and nothing is stored. *)
Theorem X10_without_store_handle env request coll :
  let bound := run (summarize_text env request) coll in
  let unbound := summarize_text_unbound env request (mkState coll 0 []) in
  (forall st,
     summarize_text env request st =
     bind (summarize_until_record env request) (save_and_answer env request) st)
  /\
  collection (snd unbound) = coll /\
  hf_calls (snd unbound) = hf_calls (snd bound) /\
  trace (snd bound)
  = trace (snd unbound) ++ (InsertOne <$> inserts (trace (snd bound))) /\
  fst unbound = match fst bound with
                | Return _ => NameError _ "collection"
                | Raise e => Ended _ (Raise e)
                end.
Proof.
  intros bound unbound. subst bound unbound.
  split; [apply summarize_text_halves |].
  assert (Hquiet : forall k n,
            inserts (loop_events env (text request) 3 0 k n) = []).
  { intros k n. generalize 0. revert k.
    induction n as [|n IH]; intros k a; [done |].
    cbn [loop_events inserts omap list_omap]. apply IH. }
  unfold summarize_text_unbound.
  destruct (decide (valid request)) as [Hvalid|Hbad].
  - rewrite (summarize_until_record_exact env request coll Hvalid).
    rewrite (summarize_text_exact env request coll Hvalid).
    destruct (verdict_of env (text request)) as [n s|n e| |];
      cbn [fst snd trace hf_calls collection];
      rewrite ?inserts_app, ?Hquiet, ?app_nil_r; done.
  - rewrite (summarize_until_record_rejects env request coll Hbad).
    by rewrite (summarize_text_rejects_exact env request coll Hbad).
Qed.

(** ** Start-up *)

(** X11. Loading the module needs both credentials: it goes through
    exactly when [MONGO_URI] and [HF_TOKEN] are both set to a non-empty
    value; a variable that is missing or set to the empty string stops it
    with the [ValueError], whatever the store would have done, before any
    connection is tried and before anything is printed. *)
Theorem X11_startup_needs_both_credentials environ mongo :
  (Startup.configured environ <->
   exists globals, Startup.startup environ mongo = Startup.Loaded globals) /\
  (~ Startup.configured environ ->
   Startup.startup environ mongo
   = Startup.ValueError "Missing environment variables. Check your .env file.").
Proof.
  unfold Startup.configured, Startup.startup, Startup.os_getenv.
  destruct (environ !! "MONGO_URI") as [[|a uri]|];
    destruct (environ !! "HF_TOKEN") as [[|b token]|]; cbn;
    (split; [split |]);
    try (intros (u & t & Hu & Hune & Ht & Htne); by simplify_eq);
    try (by intros [g Hg]); try done.
  - intros _. by eexists.
  - intros _. by eexists _, _.
  - intros Hno. destruct Hno. by eexists _, _.
Qed.

(** X12. With both credentials set, loading the module survives whatever
    the store does: it always completes and prints exactly one line; the
    global [collection] ends up bound exactly when the client could be
    constructed, also when the ping failed afterwards; the line is the
    success line exactly when both the construction and the ping went
    through, and otherwise the error line ending in the message of the
    exception that was raised. *)
Theorem X12_startup_survives_the_store environ mongo :
  Startup.configured environ ->
  exists uri globals,
    environ !! "MONGO_URI" = Some uri /\
    Startup.startup environ mongo = Startup.Loaded globals /\
    length (Startup.console globals) = 1%nat /\
    (Startup.collection_bound globals = true <->
     Startup.client_error (mongo uri) = None) /\
    (Startup.console globals = ["✅ Successfully connected to MongoDB"] <->
     Startup.client_error (mongo uri) = None /\
     Startup.ping_error (mongo uri) = None) /\
    (forall e,
       Startup.client_error (mongo uri) = Some e \/
       (Startup.client_error (mongo uri) = None /\
        Startup.ping_error (mongo uri) = Some e) ->
       Startup.console globals = ["❌ MongoDB Connection Error: " +:+ e]).
Proof.
  intros (uri & token & Huri & Hune & Htoken & Htne).
  exists uri. unfold Startup.startup, Startup.os_getenv.
  rewrite Huri, Htoken.
  destruct uri as [|a uri]; [done |]. destruct token as [|b token]; [done |].
  cbn [Startup.truthy negb orb].
  change (default "" (Some (String a uri))) with (String a uri).
  eexists. split; [done |].
  split; [reflexivity |]. unfold Startup.connect.
  destruct (Startup.client_error (mongo (String a uri))) as [e1|];
    [| destruct (Startup.ping_error (mongo (String a uri))) as [e2|]];
    cbn [Startup.console Startup.collection_bound length].
  - split; [done |]. split; [done |]. split; [by split; [| intros [? ?]] |].
    intros e [He | [He _]]; by simplify_eq.
  - split; [done |]. split; [done |]. split; [by split; [| intros [? ?]] |].
    intros e [He | [_ He]]; by simplify_eq.
  - split; [done |]. split; [done |]. split; [done |].
    intros e [He | [_ He]]; by simplify_eq.
Qed.

Lemma X12_startup_survives_the_store_witness :
  Startup.configured sample_environ /\
  exists globals,
    Startup.startup sample_environ unreachable_mongo = Startup.Loaded globals /\
    Startup.console globals
    = ["❌ MongoDB Connection Error: localhost:27017: Connection refused"].
Proof.
  assert (Hc : Startup.configured sample_environ).
  { exists "mongodb://localhost:27017", "hf_0123456789".
    split; [reflexivity |]. split; [discriminate |].
    split; [reflexivity | discriminate]. }
  split; [exact Hc |].
  destruct (X12_startup_survives_the_store sample_environ unreachable_mongo Hc)
    as (uri & globals & _ & Hload & _ & _ & _ & Herr).
  exists globals. split; [exact Hload |].
  apply Herr. right. split; reflexivity.
Defined.
